(** * cms-copilot: the Generative UI cards of [src/ui/ui.tsx]

    A shallow embedding of the card registry, the progress tracker, the
    action and resume bridges, the clarify form controller and the SEO task
    scale of [ui.tsx], with the properties stated about them.

    Conventions.
    - A JavaScript string is the list of its UTF-16 code units ([jsstring]).
    - An optional property ([x?: T]) is an [option]; [a || d] on an optional
      value is written out with JavaScript's truthiness.
    - A function that touches the host (the [window] object, the document,
      the stream context) returns the trace of the effects it performs, in
      program order. *)

From Stdlib Require Import ZArith NArith List String Ascii Bool Lia.
From Stdlib Require Import QArith Qround Lqa DecimalString DecimalNat.
From stdpp Require Import base option list gmap strings.

Local Open Scope Z_scope.

(* ===================================================================== *)
(** ** JavaScript values *)
(* ===================================================================== *)

Module JS.

(** A string is the list of its UTF-16 code units. *)
Definition jsstring := list N.

(** An ASCII literal of the source as code units. *)
Fixpoint lit (s : string) : jsstring :=
  match s with
  | EmptyString => []
  | String a rest => N_of_ascii a :: lit rest
  end.

(** [x || d] for an optional string: [undefined] and the empty string are
    falsy. *)
Definition str_or (x : option jsstring) (d : jsstring) : jsstring :=
  match x with
  | None | Some [] => d
  | Some s => s
  end.

(** [x || d] for an optional number: [undefined] and [0] are falsy.
    Numbers are the integer-valued ones. *)
Definition num_or (x : option Z) (d : Z) : Z :=
  match x with
  | None | Some 0 => d
  | Some n => n
  end.

(** Template-literal conversion of an optional string. *)
Definition to_display (x : option jsstring) : jsstring :=
  match x with
  | None => lit "undefined"
  | Some s => s
  end.

(** The outcome of evaluating an expression that may throw. *)
Inductive completion (A : Type) : Type :=
| Normal (a : A)
| RangeError.
Arguments Normal {A} a.
Arguments RangeError {A}.

Definition bind {A B} (c : completion A) (k : A -> completion B) : completion B :=
  match c with
  | Normal a => k a
  | RangeError => RangeError
  end.

(** [String.prototype.repeat]: a negative count throws a RangeError. *)
Definition repeat (s : jsstring) (count : Z) : completion jsstring :=
  if count <? 0 then RangeError
  else Normal (List.concat (List.repeat s (Z.to_nat count))).

End JS.

Export JS.

(* ===================================================================== *)
(** ** Progress tracker (SEOPlannerCard, SiteReportCard, ReportProgressCard) *)
(* ===================================================================== *)

Module Progress.

Inductive StepState := pending | active | done.

#[global] Instance StepState_eq_dec : EqDecision StepState.
Proof. solve_decision. Defined.

(** [const isActive = (props.active_step || 1) === idx + 1;] *)
Definition isActive (active_step : option Z) (idx : nat) : bool :=
  num_or active_step 1 =? Z.of_nat idx + 1.

(** [const isDone = (props.active_step || 1) > idx + 1;] *)
Definition isDone (active_step : option Z) (idx : nat) : bool :=
  num_or active_step 1 >? Z.of_nat idx + 1.

(** The marker of a row: the check mark when done, the spinner when
    active, the number of the step otherwise. *)
Definition step_state (active_step : option Z) (idx : nat) : StepState :=
  if isDone active_step idx then done
  else if isActive active_step idx then active
  else pending.

(** [steps.map((step, idx) => ...)]: one row per step, with its marker. *)
Definition render_steps (steps : list jsstring) (active_step : option Z)
  : list (StepState * jsstring) :=
  imap (fun idx step => (step_state active_step idx, step)) steps.

Inductive Status := loading | status_done | status_error.

Record ProgressProps := {
  status : Status;
  steps : option (list jsstring);
  active_step : option Z;
}.

(** [{props.status === "loading" && steps.length > 0 ? ... : null}] with
    [const steps = props.steps || []]. *)
Definition progress_section (props : ProgressProps)
  : option (list (StepState * jsstring)) :=
  let steps := default [] (steps props) in
  match status props with
  | loading =>
      if (0 <? Z.of_nat (length steps)) then Some (render_steps steps (active_step props))
      else None
  | _ => None
  end.

(** The cursor the rows are compared with. *)
Definition cursor (active_step : option Z) : Z := num_or active_step 1.

End Progress.

(* ===================================================================== *)
(** ** Card registry ([ComponentMap]) *)
(* ===================================================================== *)

Module Registry.

(** The card components of the file, by name. *)
Inductive Renderer :=
| IntentRouterCard
| ArticleWorkflowCard
| ArticleClarifyCard
| MCPWorkflowCard
| SEOPlannerCard
| SiteReportCard
| ReportProgressCard
| ReportChartsCard
| ReportInsightsCard.

#[global] Instance Renderer_eq_dec : EqDecision Renderer.
Proof. solve_decision. Defined.

(** The properties of the object literal, in source order. *)
Definition entries : list (string * Renderer) :=
  [ ("intent_router"%string, IntentRouterCard);
    ("article_workflow"%string, ArticleWorkflowCard);
    ("article_clarify"%string, ArticleClarifyCard);
    ("mcp_workflow"%string, MCPWorkflowCard);
    ("seo_planner"%string, SEOPlannerCard);
    ("site_report"%string, SiteReportCard);
    ("report_progress"%string, ReportProgressCard);
    ("report_charts"%string, ReportChartsCard);
    ("report_insights"%string, ReportInsightsCard);
    ("card"%string, IntentRouterCard) ].

Definition ComponentMap : gmap string Renderer := list_to_map entries.

(** Resolution of a pushed component name against the exported map (its
    own properties). *)
Definition lookup_card (key : string) : option Renderer := ComponentMap !! key.

Definition keys : list string := entries.*1.

End Registry.

(* ===================================================================== *)
(** ** The registry as a JavaScript object: [ComponentMap[key]] *)
(* ===================================================================== *)

Module RegistryObject.
Import Registry.

(** The string-named properties every object literal inherits from
    [Object.prototype] (ECMAScript 20.1.3 and B.2.2). *)
Definition Object_prototype_names : list string :=
  [ "constructor"; "hasOwnProperty"; "isPrototypeOf"; "propertyIsEnumerable";
    "toLocaleString"; "toString"; "valueOf"; "__proto__";
    "__defineGetter__"; "__defineSetter__"; "__lookupGetter__"; "__lookupSetter__" ]%string.

(** What a property access on the registry evaluates to. *)
Inductive PropertyValue :=
| Card (r : Renderer)              (* an own property: a card component *)
| Inherited (name : string)        (* the property [name] of [Object.prototype] *)
| Undefined.                       (* no property of that name: absence *)

(** [ComponentMap[key]]: the own property of that name when the literal has
    one, else the property of that name along the prototype chain, else
    [undefined].  The access itself never throws. *)
Definition get (key : string) : PropertyValue :=
  match ComponentMap !! key with
  | Some r => Card r
  | None =>
      if bool_decide (key ∈ Object_prototype_names) then Inherited key else Undefined
  end.

End RegistryObject.

(* ===================================================================== *)
(** ** The host: [window], the document, observable effects *)
(* ===================================================================== *)

Module Host.

(** What calling a host function does. *)
Inductive Outcome := Returns | Throws.

(** The value found under a name of [window]: only [typeof v === "function"]
    is observed. *)
Inductive GlobalVal :=
| GFunction (o : Outcome)
| GOther.

(** [{ confirmed: boolean }] *)
Record ResumeValue := { confirmed : bool }.

(** The argument of a call to a host function. *)
Inductive Arg :=
| AText (text : jsstring)
| AResume (value : ResumeValue).

(** The [detail] of a CustomEvent. *)
Inductive Detail :=
| DText (text : jsstring)            (* { text } *)
| DResume (value : ResumeValue).     (* the decision value itself *)

Inductive Tag := TEXTAREA | INPUT.

Record Element := { el_id : nat; tagName : Tag }.
Record FormEl := { form_id : nat; has_requestSubmit : bool }.
Record ButtonEl := { button_id : nat }.

(** The selectors the bridges query. *)
Inductive InputSelector :=
| sel_textarea                       (* textarea *)
| sel_input_text.                    (* input[type="text"] *)

Inductive ButtonSelector :=
| sel_submit                         (* button[type="submit"] *)
| sel_non_plain.                     (* button:not([type="button"]) *)

Record Document := {
  querySelector : InputSelector -> option Element;
  closest_form : Element -> option FormEl;
  form_querySelector : FormEl -> ButtonSelector -> option ButtonEl;
  page_submit_button : option ButtonEl;   (* document.querySelector('button[type="submit"]') *)
  (* Object.getOwnPropertyDescriptor(proto, "value")?.set *)
  value_setter : Tag -> bool;
}.

Record Window := {
  globals : gmap string GlobalVal;
  document : Document;
}.

Inductive KeyPhase := keydown | keypress | keyup.

(** The [messages] entry handed to the stream context. *)
Record Message := { role : string; type : string; content : jsstring }.

Inductive Effect :=
| CallGlobal (fn : string) (a : Arg) (o : Outcome)      (* win[fn](a) *)
| DispatchWindowEvent (name : string) (d : Detail)      (* window.dispatchEvent(new CustomEvent(name, {detail})) *)
| SetValueNative (el : Element) (text : jsstring)       (* setter.call(input, text) *)
| SetValueProp (el : Element) (text : jsstring)         (* input.value = text *)
| DispatchInputEvent (el : Element) (name : string)     (* input.dispatchEvent(new Event(name, {bubbles})) *)
| SetTimeout (ms : Z) (el : Element)                    (* the delayed submit for [el] *)
| Click (b : ButtonEl)
| RequestSubmit (f : FormEl)
| FormSubmit (f : FormEl)
| DispatchKey (el : Element) (k : KeyPhase)             (* Enter key *)
| StreamSubmit (m : Message) (o : Outcome).             (* streamCtx.submit({ messages: [m] }) *)

(** The strategy of the Action Bridge an effect belongs to. *)
Inductive Strategy := GlobalProbe | EventBroadcast | DomManipulation | StreamChannel.

Definition strategy_of (e : Effect) : Strategy :=
  match e with
  | CallGlobal _ _ _ => GlobalProbe
  | DispatchWindowEvent _ _ => EventBroadcast
  | StreamSubmit _ _ => StreamChannel
  | _ => DomManipulation
  end.

#[global] Instance Strategy_eq_dec : EqDecision Strategy.
Proof. solve_decision. Defined.

(** Does a trace contain an effect of strategy [s]? *)
Definition ran (s : Strategy) (tr : list Effect) : bool :=
  existsb (fun e => bool_decide (strategy_of e = s)) tr.

(** [typeof win[fn] === "function"] and what the call does. *)
Definition function_at (win : Window) (fn : string) : option Outcome :=
  match globals win !! fn with
  | Some (GFunction o) => Some o
  | _ => None
  end.

(** The loop shared by the probes:
    [for (const fn of fns) { if (typeof win[fn] === "function") { try { win[fn](a); return; } catch {} } }].
    The boolean tells whether the enclosing function returned. *)
Fixpoint probe (win : Window) (fns : list string) (a : Arg) : list Effect * bool :=
  match fns with
  | [] => ([], false)
  | fn :: rest =>
      match function_at win fn with
      | Some Returns => ([CallGlobal fn a Returns], true)
      | Some Throws =>
          let '(tr, returned) := probe win rest a in
          (CallGlobal fn a Throws :: tr, returned)
      | None => probe win rest a
      end
  end.

#[global] Instance Outcome_eq_dec : EqDecision Outcome.
Proof. solve_decision. Defined.

(** The names of [fns] whose function throws when called, and the calls
    the probe loop makes to them. *)
Definition throwers (win : Window) (fns : list string) : list string :=
  List.filter (fun fn => bool_decide (function_at win fn = Some Throws)) fns.

Definition failed_calls (win : Window) (fns : list string) (a : Arg) : list Effect :=
  List.map (fun fn => CallGlobal fn a Throws) (throwers win fns).

(** No name of [fns] is a function that returns normally. *)
Definition none_returns (win : Window) (fns : list string) : Prop :=
  forall fn, In fn fns -> function_at win fn <> Some Returns.

End Host.

Export Host.

(* ===================================================================== *)
(** ** Action Bridge ([sendMessage]) *)
(* ===================================================================== *)

Module ActionBridge.

Definition globalFns : list string :=
  [ "__LANGGRAPH_SEND_MESSAGE__"; "__LANGGRAPH_SEND__"; "sendMessage"; "sendChatMessage" ]%string.

Definition selectors : list InputSelector := [ sel_textarea; sel_input_text ].

(** [const proto = input.tagName === "TEXTAREA" ? HTMLTextAreaElement.prototype : HTMLInputElement.prototype] *)
Definition proto_of (el : Element) : Tag :=
  match tagName el with
  | TEXTAREA => TEXTAREA
  | INPUT => INPUT
  end.

(** The body of the selector loop for a found element, up to its [return]. *)
Definition fill_input (doc : Document) (input : Element) (text : jsstring) : list Effect :=
  [ (if value_setter doc (proto_of input) then SetValueNative input text
     else SetValueProp input text);
    DispatchInputEvent input "input";
    DispatchInputEvent input "change";
    SetTimeout 50 input ].

(** [for (const sel of selectors) { const input = document.querySelector(sel); if (!input) continue; ...; return; }] *)
Fixpoint manipulate (doc : Document) (sels : list InputSelector) (text : jsstring) : list Effect :=
  match sels with
  | [] => []
  | sel :: rest =>
      match querySelector doc sel with
      | None => manipulate doc rest text
      | Some input => fill_input doc input text
      end
  end.

(** [sendMessage] of ArticleClarifyCard and of MCPWorkflowCard: the two
    copies perform the same steps in the same order. *)
Definition sendMessage (win : Window) (text : jsstring) : list Effect :=
  let '(calls, returned) := probe win globalFns (AText text) in
  if returned then calls
  else
    calls
    ++ DispatchWindowEvent "langgraph:send" (DText text)
    :: manipulate (document win) selectors text.

(** The callback of [setTimeout(..., 50)], run against the document as it
    is when the timer fires. *)
Definition delayed_submit (doc : Document) (input : Element) : list Effect :=
  let form := closest_form doc input in
  let submitBtn :=
    match form ≫= (fun f => form_querySelector doc f sel_submit) with
    | Some b => Some b
    | None =>
        match form ≫= (fun f => form_querySelector doc f sel_non_plain) with
        | Some b => Some b
        | None => page_submit_button doc
        end
    end in
  match submitBtn with
  | Some b => [Click b]
  | None =>
      match form with
      | Some f => if has_requestSubmit f then [RequestSubmit f] else [FormSubmit f]
      | None => [DispatchKey input keydown; DispatchKey input keypress; DispatchKey input keyup]
      end
  end.

End ActionBridge.

(* ===================================================================== *)
(** ** Resume Bridge ([resumeInterrupt] of MCPWorkflowCard) *)
(* ===================================================================== *)

Module ResumeBridge.

Definition resumeFns : list string := [ "resumeThread"; "resume"; "sendResume" ]%string.

(** "confirm" and "cancel" as the source spells them. *)
Definition text_confirm : jsstring := [30830; 35748]%N.
Definition text_cancel : jsstring := [21462; 28040]%N.

Definition resumeInterrupt (win : Window) (value : ResumeValue) : list Effect :=
  (* 1: the function injected by LangGraph Studio *)
  let '(first, returned1) :=
    match function_at win "__LANGGRAPH_RESUME__" with
    | Some Returns => ([CallGlobal "__LANGGRAPH_RESUME__" (AResume value) Returns], true)
    | Some Throws => ([CallGlobal "__LANGGRAPH_RESUME__" (AResume value) Throws], false)
    | None => ([], false)
    end in
  if returned1 then first
  else
    (* 2: the resume functions of Agent Chat UI *)
    let '(others, returned2) := probe win resumeFns (AResume value) in
    if returned2 then first ++ others
    else
      first ++ others
      (* 3: the custom event *)
      ++ DispatchWindowEvent "langgraph:resume" (DResume value)
      (* 4: the text message *)
      :: ActionBridge.sendMessage win (if confirmed value then text_confirm else text_cancel).

(** The resume functions in the order they are tried. *)
Definition resume_chain : list string := "__LANGGRAPH_RESUME__"%string :: resumeFns.

Definition handleConfirm (win : Window) : list Effect := resumeInterrupt win {| confirmed := true |}.
Definition handleCancel (win : Window) : list Effect := resumeInterrupt win {| confirmed := false |}.

End ResumeBridge.

(* ===================================================================== *)
(** ** JSON text: [JSON.stringify] as the source uses it, and its reader *)
(* ===================================================================== *)

Module JSON.

Local Open Scope N_scope.

(** Code units with a role in JSON text. *)
Definition QUOTE : N := 34.       (* the double quote *)
Definition BACKSLASH : N := 92.
Definition SLASH : N := 47.
Definition LF : N := 10.
Definition CR : N := 13.

Definition is_high_surrogate (c : N) : bool := (55296 <=? c) && (c <=? 56319).
Definition is_low_surrogate (c : N) : bool := (56320 <=? c) && (c <=? 57343).

(** A hexadecimal digit, lower case, as a code unit. *)
Definition hex_digit (d : N) : N := if d <? 10 then 48 + d else 87 + d.

(** [\uXXXX] *)
Definition unicode_escape (c : N) : jsstring :=
  [ BACKSLASH; 117;
    hex_digit (c / 4096 mod 16); hex_digit (c / 256 mod 16);
    hex_digit (c / 16 mod 16); hex_digit (c mod 16) ].

(** QuoteJSONString on one code unit that is not part of a surrogate
    pair. *)
Definition quote_unit (c : N) : jsstring :=
  if c =? 8 then [BACKSLASH; 98]             (* \b *)
  else if c =? 9 then [BACKSLASH; 116]       (* \t *)
  else if c =? 10 then [BACKSLASH; 110]      (* \n *)
  else if c =? 12 then [BACKSLASH; 102]      (* \f *)
  else if c =? 13 then [BACKSLASH; 114]      (* \r *)
  else if c =? QUOTE then [BACKSLASH; QUOTE]
  else if c =? BACKSLASH then [BACKSLASH; BACKSLASH]
  else if (c <? 32) || is_high_surrogate c || is_low_surrogate c then unicode_escape c
  else [c].

(** The characters between the quotes: a surrogate pair is copied, a lone
    surrogate is escaped. *)
Fixpoint quote_body (s : jsstring) : jsstring :=
  match s with
  | [] => []
  | c :: rest =>
      match rest with
      | l :: rest' =>
          if is_high_surrogate c && is_low_surrogate l
          then c :: l :: quote_body rest'
          else quote_unit c ++ quote_body rest
      | [] => quote_unit c
      end
  end.

(** [JSON.stringify] of a string. *)
Definition stringify_string (s : jsstring) : jsstring :=
  QUOTE :: quote_body s ++ [QUOTE].

(** The parts after the first, each behind its comma. *)
Definition after_commas (parts : list jsstring) : jsstring :=
  List.concat (List.map (fun q => 44 :: q) parts).

Definition join_comma (parts : list jsstring) : jsstring :=
  match parts with
  | [] => []
  | p :: ps => p ++ after_commas ps
  end.

(** One property: its quoted name, a colon, its quoted value. *)
Definition member_text (m : jsstring * jsstring) : jsstring :=
  stringify_string m.1 ++ 58 :: stringify_string m.2.

(** [JSON.stringify] of an object whose properties are strings, in
    property order, without an indent. *)
Definition stringify_object (members : list (jsstring * jsstring)) : jsstring :=
  123 :: join_comma (List.map member_text members) ++ [125].

(** [JSON.stringify] of an array of strings. *)
Definition stringify_array (items : list jsstring) : jsstring :=
  91 :: join_comma (List.map stringify_string items) ++ [93].

(** *** Reading JSON text (ECMA-404), for objects with string members *)

Definition hex_value (c : N) : option N :=
  if (48 <=? c) && (c <=? 57) then Some (c - 48)
  else if (97 <=? c) && (c <=? 102) then Some (c - 87)
  else if (65 <=? c) && (c <=? 70) then Some (c - 55)
  else None.

Definition hex4 (a b c d : N) : option N :=
  match hex_value a, hex_value b, hex_value c, hex_value d with
  | Some x, Some y, Some z, Some w => Some (x * 4096 + y * 256 + z * 16 + w)
  | _, _, _, _ => None
  end.

(** The character of a two-character escape. *)
Definition simple_escape (e : N) : option N :=
  if e =? QUOTE then Some QUOTE
  else if e =? BACKSLASH then Some BACKSLASH
  else if e =? SLASH then Some SLASH
  else if e =? 98 then Some 8
  else if e =? 102 then Some 12
  else if e =? 110 then Some 10
  else if e =? 114 then Some 13
  else if e =? 116 then Some 9
  else None.

(** A string after its opening quote: the characters up to the closing
    quote, and the rest of the text. *)
Fixpoint read_string_body (s : jsstring) : option (jsstring * jsstring) :=
  match s with
  | [] => None
  | c :: rest =>
      if c =? QUOTE then Some ([], rest)
      else if c =? BACKSLASH then
        match rest with
        | [] => None
        | e :: rest1 =>
            if e =? 117 then
              match rest1 with
              | h1 :: h2 :: h3 :: h4 :: rest2 =>
                  match hex4 h1 h2 h3 h4 with
                  | Some u =>
                      match read_string_body rest2 with
                      | Some (cs, tl) => Some (u :: cs, tl)
                      | None => None
                      end
                  | None => None
                  end
              | _ => None
              end
            else
              match simple_escape e with
              | Some u =>
                  match read_string_body rest1 with
                  | Some (cs, tl) => Some (u :: cs, tl)
                  | None => None
                  end
              | None => None
              end
        end
      else if c <? 32 then None
      else
        match read_string_body rest with
        | Some (cs, tl) => Some (c :: cs, tl)
        | None => None
        end
  end.

Definition is_ws (c : N) : bool := (c =? 32) || (c =? 9) || (c =? 10) || (c =? 13).

Fixpoint skip_ws (s : jsstring) : jsstring :=
  match s with
  | c :: rest => if is_ws c then skip_ws rest else s
  | [] => []
  end.

Definition read_string (s : jsstring) : option (jsstring * jsstring) :=
  match skip_ws s with
  | c :: rest => if c =? QUOTE then read_string_body rest else None
  | [] => None
  end.

(** Expect the code unit [c] after optional white space. *)
Definition expect (c : N) (s : jsstring) : option jsstring :=
  match skip_ws s with
  | d :: rest => if d =? c then Some rest else None
  | [] => None
  end.

(** One member, [string : string]. *)
Definition read_member (s : jsstring) : option ((jsstring * jsstring) * jsstring) :=
  '(k, s1) ← read_string s;
  s2 ← expect 58 s1;
  '(v, s3) ← read_string s2;
  Some ((k, v), s3).

(** The members after the first, up to the closing brace. *)
Fixpoint read_more_members (fuel : nat) (s : jsstring)
  : option (list (jsstring * jsstring) * jsstring) :=
  match fuel with
  | O => None
  | S fuel' =>
      match skip_ws s with
      | c :: rest =>
          if c =? 125 then Some ([], rest)
          else if c =? 44 then
            '(m, s1) ← read_member rest;
            '(ms, s2) ← read_more_members fuel' s1;
            Some (m :: ms, s2)
          else None
      | [] => None
      end
  end.

(** [JSON.parse] on the text of an object with string members: the
    members in text order, or [None] for a SyntaxError.  Every member
    takes at least one code unit, so the length of the text is fuel
    enough. *)
Definition parse_object (s : jsstring) : option (list (jsstring * jsstring)) :=
  s1 ← expect 123 s;
  '(members, s2) ←
    match skip_ws s1 with
    | c :: rest =>
        if c =? 125 then Some ([], rest)
        else
          '(m, s3) ← read_member s1;
          '(ms, s4) ← read_more_members (length s) s3;
          Some (m :: ms, s4)
    | [] => None
    end;
  match skip_ws s2 with
  | [] => Some members
  | _ :: _ => None
  end.

End JSON.

(* ===================================================================== *)
(** ** Clarify form controller (ArticleClarifyCard) *)
(* ===================================================================== *)

Module Clarify.

(** The properties of [ArticleClarifyProps] the controller reads. *)
Record Props := {
  missing : option (list jsstring);
  question : option jsstring;
  p_topic : option jsstring;
  p_content_format : option jsstring;
  p_target_audience : option jsstring;
  p_tone : option jsstring;
}.

(** The [useState] cells of the card. *)
Record FormState := {
  topic : jsstring;
  contentFormat : jsstring;
  audience : jsstring;
  tone : jsstring;
  submitting : bool;
}.

(** First render: every field starts from its prop, or empty; the guard
    starts false. *)
Definition mount (props : Props) : FormState :=
  {| topic := str_or (p_topic props) [];
     contentFormat := str_or (p_content_format props) [];
     audience := str_or (p_target_audience props) [];
     tone := str_or (p_tone props) [];
     submitting := false |}.

(** The second dependency of the guard effect:
    [JSON.stringify(props.missing || [])]. *)
Definition missing_key (props : Props) : jsstring :=
  JSON.stringify_array (default [] (missing props)).

(** The dependency list [[props.question, JSON.stringify(props.missing || [])]]
    differs between two renders. *)
Definition round_changed (old new : Props) : bool :=
  negb (bool_decide (question old = question new)
        && bool_decide (missing_key old = missing_key new)).

(** A re-render with new props: every [useEffect] whose dependencies
    changed runs its setter. *)
Definition update (old new : Props) (st : FormState) : FormState :=
  {| topic :=
       if bool_decide (p_topic old = p_topic new) then topic st
       else str_or (p_topic new) [];
     contentFormat :=
       if bool_decide (p_content_format old = p_content_format new) then contentFormat st
       else str_or (p_content_format new) [];
     audience :=
       if bool_decide (p_target_audience old = p_target_audience new) then audience st
       else str_or (p_target_audience new) [];
     tone :=
       if bool_decide (p_tone old = p_tone new) then tone st
       else str_or (p_tone new) [];
     submitting := if round_changed old new then false else submitting st |}.

(** The four fields sent back. *)
Record Payload := {
  pl_topic : jsstring;
  pl_content_format : jsstring;
  pl_target_audience : jsstring;
  pl_tone : jsstring;
}.

(** [const payload = { topic: ..., content_format: ..., ... }], each field
    falling back to the empty string. *)
Definition payload_of (st : FormState) : Payload :=
  {| pl_topic := str_or (Some (topic st)) [];
     pl_content_format := str_or (Some (contentFormat st)) [];
     pl_target_audience := str_or (Some (audience st)) [];
     pl_tone := str_or (Some (tone st)) [] |}.

(** The properties of [payload], in the order the literal lists them. *)
Definition members (p : Payload) : list (jsstring * jsstring) :=
  [ (lit "topic", pl_topic p);
    (lit "content_format", pl_content_format p);
    (lit "target_audience", pl_target_audience p);
    (lit "tone", pl_tone p) ].

Definition payloadJson (p : Payload) : jsstring := JSON.stringify_object (members p).

(** The literal text of the summary (code units of the source's string
    literals): the heading line and the four item labels. *)
Definition heading : jsstring := [24050; 23436; 21892; 25991; 31456; 20449; 24687; 65306; 10]%N.
Definition label_topic : jsstring := [45; 32; 20027; 39064; 65306]%N.
Definition label_format : jsstring := [45; 32; 26684; 24335; 65306]%N.
Definition label_audience : jsstring := [45; 32; 21463; 20247; 65306]%N.
Definition label_tone : jsstring := [45; 32; 39118; 26684; 65306]%N.

Definition comment_open : jsstring := lit "<!-- ".
Definition comment_close : jsstring := lit " -->".

(** [displayContent]: the readable summary, then the hidden JSON. *)
Definition displayContent (p : Payload) : jsstring :=
  heading
  ++ label_topic ++ pl_topic p ++ [JSON.LF]
  ++ label_format ++ pl_content_format p ++ [JSON.LF]
  ++ label_audience ++ pl_target_audience p ++ [JSON.LF]
  ++ label_tone ++ pl_tone p ++ [JSON.LF; JSON.LF]
  ++ comment_open ++ payloadJson p ++ comment_close.

(** [useStreamContext?.()]: absent, or an object whose [submit] is or is
    not a function. *)
Inductive StreamCtx :=
| NoStreamCtx
| StreamCtxWith (submit : option Outcome).

Definition newMessage (text : jsstring) : Message :=
  {| role := "user"; type := "human"; content := text |}.

(** [handleSubmit]: the state after the click and the effects performed. *)
Definition handleSubmit (ctx : StreamCtx) (win : Window) (st : FormState)
  : FormState * list Effect :=
  if submitting st then (st, [])
  else
    let st' := {| topic := topic st; contentFormat := contentFormat st;
                  audience := audience st; tone := tone st;
                  submitting := true |} in
    let text := displayContent (payload_of st) in
    match ctx with
    | StreamCtxWith (Some Returns) => (st', [StreamSubmit (newMessage text) Returns])
    | StreamCtxWith (Some Throws) =>
        (st', StreamSubmit (newMessage text) Throws :: ActionBridge.sendMessage win text)
    | _ => (st', ActionBridge.sendMessage win text)
    end.

(** The text an effect delivers, when it delivers one. *)
Definition delivered_text (e : Effect) : option jsstring :=
  match e with
  | CallGlobal _ (AText t) _ => Some t
  | DispatchWindowEvent _ (DText t) => Some t
  | SetValueNative _ t | SetValueProp _ t => Some t
  | StreamSubmit m _ => Some (content m)
  | _ => None
  end.

End Clarify.

(* ===================================================================== *)
(** ** SEO task rows (SEOPlannerCard) *)
(* ===================================================================== *)

Module SEO.

Inductive FixAction := fix_article | fix_link | fix_none.

(** The fields of [SEOTask] the scale and the fix button read. *)
Record SEOTask := {
  category : option jsstring;
  issue_type : option jsstring;
  title : option jsstring;
  impact : option Z;
  difficulty : option Z;
  fix_action : option FixAction;
  fix_prompt : option jsstring;
}.

Definition STAR : jsstring := [9733]%N.         (* the filled glyph *)
Definition STAR_EMPTY : jsstring := [9734]%N.   (* the empty glyph *)

(** [{"*".repeat(v || 0)}{"o".repeat(5 - (v || 0))}] with the two glyphs:
    the children of the span, evaluated left to right.  The score is an
    integer here; what the card does with a fractional score is not
    modelled. *)
Definition scale (v : option Z) : completion jsstring :=
  JS.bind (JS.repeat STAR (num_or v 0)) (fun filled =>
  JS.bind (JS.repeat STAR_EMPTY (5 - num_or v 0)) (fun empty =>
  Normal (filled ++ empty))).

Definition impact_scale (t : SEOTask) : completion jsstring := scale (impact t).
Definition difficulty_scale (t : SEOTask) : completion jsstring := scale (difficulty t).

Definition count_glyph (g : N) (s : jsstring) : nat :=
  length (List.filter (fun c => N.eqb c g) s).

(** The [detail] of the [copilot:send] event of the fix button. *)
Record TaskInfo := {
  ti_issue_type : option jsstring;
  ti_category : option jsstring;
  ti_title : option jsstring;
}.

Record FixDetail := {
  message : jsstring;
  intent : string;
  task_info : TaskInfo;
}.

(** The default request text around the title. *)
Definition default_prefix : jsstring := [38024; 23545; 34]%N.
Definition default_suffix : jsstring :=
  [34; 38382; 39064; 65292; 21019; 24314; 30456; 20851; 20869; 23481; 36827; 34892; 20248; 21270; 12290]%N.

(** [const chatMessage = task.fix_prompt || `...${task.title}...`] *)
Definition chatMessage (t : SEOTask) : jsstring :=
  str_or (fix_prompt t) (default_prefix ++ to_display (title t) ++ default_suffix).

(** The payload built on a click of the fix button of an [article] task. *)
Definition fix_detail (t : SEOTask) : FixDetail :=
  {| message := chatMessage t;
     intent := "article_task";
     task_info := {| ti_issue_type := issue_type t;
                     ti_category := category t;
                     ti_title := title t |} |}.

(** The same task with other scores. *)
Definition with_scores (i d : option Z) (t : SEOTask) : SEOTask :=
  {| category := category t; issue_type := issue_type t; title := title t;
     impact := i; difficulty := d;
     fix_action := fix_action t; fix_prompt := fix_prompt t |}.

(** The declared range of a score: absent, or an integer from 0 to 5. *)
Definition in_range (v : option Z) : Prop :=
  match v with
  | None => True
  | Some n => 0 <= n <= 5
  end.

(** [n] filled glyphs, then the empty ones up to five. *)
Definition glyphs (n : Z) : jsstring :=
  List.repeat 9733%N (Z.to_nat n) ++ List.repeat 9734%N (Z.to_nat (5 - n)).

End SEO.

(* ===================================================================== *)
(** ** Concrete hosts and inputs used in the examples *)
(* ===================================================================== *)

Module Examples.

Definition the_textarea : Element := {| el_id := 1; tagName := TEXTAREA |}.

(** A page without any input-like element. *)
Definition empty_document : Document :=
  {| querySelector := fun _ => None;
     closest_form := fun _ => None;
     form_querySelector := fun _ _ => None;
     page_submit_button := None;
     value_setter := fun _ => true |}.

(** A page with one textarea outside any form. *)
Definition textarea_document : Document :=
  {| querySelector := fun sel => match sel with sel_textarea => Some the_textarea | _ => None end;
     closest_form := fun _ => None;
     form_querySelector := fun _ _ => None;
     page_submit_button := None;
     value_setter := fun _ => true |}.

(** A host that injects nothing. *)
Definition bare_window : Window :=
  {| globals := ∅; document := empty_document |}.

(** A host that injects nothing and shows a textarea. *)
Definition textarea_window : Window :=
  {| globals := ∅; document := textarea_document |}.

(** A host whose first send function throws and whose third one works. *)
Definition studio_window : Window :=
  {| globals := <["__LANGGRAPH_SEND_MESSAGE__"%string := GFunction Throws]>
                  (<["sendMessage"%string := GFunction Returns]> ∅);
     document := textarea_document |}.

(** A host with a working [resume] function only. *)
Definition chat_window : Window :=
  {| globals := <["resume"%string := GFunction Returns]> ∅;
     document := textarea_document |}.

Definition hello : jsstring := lit "hello".

(** The form of the round-trip scenario, not yet submitted. *)
Definition form_ABCD : Clarify.FormState :=
  {| Clarify.topic := lit "A"; Clarify.contentFormat := lit "B";
     Clarify.audience := lit "C"; Clarify.tone := lit "D";
     Clarify.submitting := false |}.

(** The same form after a submit. *)
Definition form_submitted : Clarify.FormState :=
  {| Clarify.topic := lit "A"; Clarify.contentFormat := lit "B";
     Clarify.audience := lit "C"; Clarify.tone := lit "D";
     Clarify.submitting := true |}.

(** The JSON text of the scenario: the object with the properties topic,
    content_format, target_audience and tone set to A, B, C and D. *)
Definition json_ABCD : jsstring :=
  [ 123; 34; 116; 111; 112; 105; 99; 34; 58; 34; 65; 34; 44;
    34; 99; 111; 110; 116; 101; 110; 116; 95; 102; 111; 114; 109; 97; 116; 34; 58; 34; 66; 34; 44;
    34; 116; 97; 114; 103; 101; 116; 95; 97; 117; 100; 105; 101; 110; 99; 101; 34; 58; 34; 67; 34; 44;
    34; 116; 111; 110; 101; 34; 58; 34; 68; 34; 125 ]%N.

Definition props_round (q : string) (fields : list string) : Clarify.Props :=
  {| Clarify.missing := Some (List.map lit fields);
     Clarify.question := Some (lit q);
     Clarify.p_topic := Some (lit "A");
     Clarify.p_content_format := None;
     Clarify.p_target_audience := None;
     Clarify.p_tone := None |}.

Definition props_Q1 : Clarify.Props := props_round "Q1" ["tone"%string].
Definition props_Q2 : Clarify.Props := props_round "Q2" ["tone"%string].

(** A host whose stream context has a working [submit]. *)
Definition working_stream : Clarify.StreamCtx := Clarify.StreamCtxWith (Some Returns).

(** A task scored above the declared range. *)
Definition task_impact_7 : SEO.SEOTask :=
  {| SEO.category := Some (lit "Content"); SEO.issue_type := None;
     SEO.title := Some (lit "Thin page"); SEO.impact := Some 7;
     SEO.difficulty := Some 2; SEO.fix_action := Some SEO.fix_article;
     SEO.fix_prompt := Some (lit "Write more") |}.

End Examples.

(* ===================================================================== *)
(** ** Numbers as text, and [||] between optional strings *)
(* ===================================================================== *)

Module Num.

(** [String(n)] and [`${n}`] for a list index or a count: the decimal
    digits, without leading zeros. *)
Definition decimal (n : nat) : jsstring := lit (NilEmpty.string_of_uint (Nat.to_uint n)).

(** [a || b] when [b] itself may be absent: [undefined] and the empty string
    are falsy. *)
Definition opt_or (a b : option jsstring) : option jsstring :=
  match a with
  | None | Some [] => b
  | Some _ => a
  end.

(** Truthiness of an optional string, and of the [length] of an optional
    array ([x?.length]). *)
Definition truthy {A : Type} (x : option (list A)) : bool :=
  match x with
  | Some (_ :: _) => true
  | _ => false
  end.

Definition DASH : N := 45.        (* the hyphen of the row keys *)

End Num.

Export Num.

(* ===================================================================== *)
(** ** A reader for the JSON text of an array of strings *)
(* ===================================================================== *)

Module JSONArray.
Import JSON.
Local Open Scope N_scope.

(** The items after the first, up to the closing bracket. *)
Fixpoint read_more_items (fuel : nat) (s : jsstring) : option (list jsstring * jsstring) :=
  match fuel with
  | O => None
  | S fuel' =>
      match skip_ws s with
      | c :: rest =>
          if c =? 93 then Some ([], rest)
          else if c =? 44 then
            '(x, s1) ← read_string rest;
            '(xs, s2) ← read_more_items fuel' s1;
            Some (x :: xs, s2)
          else None
      | [] => None
      end
  end.

(** [JSON.parse] on the text of an array of strings. *)
Definition parse_array (s : jsstring) : option (list jsstring) :=
  s1 ← expect 91 s;
  '(items, s2) ←
    match skip_ws s1 with
    | c :: rest =>
        if c =? 93 then Some ([], rest)
        else
          '(x, s3) ← read_string s1;
          '(xs, s4) ← read_more_items (length s) s3;
          Some (x :: xs, s4)
    | [] => None
    end;
  match skip_ws s2 with
  | [] => Some items
  | _ :: _ => None
  end.

(** Code units [JSON.stringify] copies as they are: printable, neither the
    quote nor the backslash, and no surrogate. *)
Definition plain_unit (c : N) : bool :=
  (32 <=? c) && negb (c =? QUOTE) && negb (c =? BACKSLASH)
  && negb (is_high_surrogate c) && negb (is_low_surrogate c).

End JSONArray.

(* ===================================================================== *)
(** ** IntentRouterCard: the elapsed-time label *)
(* ===================================================================== *)

Module IntentRouter.

(** The two shapes of the label: minutes and seconds, or seconds only. *)
Inductive ElapsedLabel :=
| MinSec (m r : Z)
| Sec (r : Z).

(** The largest magnitude up to which every integer is a Number and the
    division by 60 rounds to the right floor: 2^53. *)
Definition safe_integer : Z := 9007199254740992.

(** [Math.round]: the nearest integer, ties upwards. *)
Definition Math_round (x : Q) : Z := Qfloor (x + (1 # 2)).

(** [elapsedLabel]; [elapsed_s] is [None] when the prop is [undefined],
    [null] or NaN, the three cases in which the label is [null].  A finite
    Number is taken as the rational it denotes.  [Math.floor(total / 60)]
    is the floor division, [total % 60] the remainder with the sign of
    [total]; both are what the source computes as long as [total] is within
    [safe_integer]. *)
Definition elapsedLabel (elapsed_s : option Q) : option ElapsedLabel :=
  match elapsed_s with
  | None => None
  | Some s =>
      let total := Math_round s in
      let m := (total / 60)%Z in
      let r := Z.rem total 60 in
      if (m >? 0)%Z then Some (MinSec m r) else Some (Sec r)
  end.

End IntentRouter.

(* ===================================================================== *)
(** ** ArticleWorkflowCard: the rows of the node list *)
(* ===================================================================== *)

Module ArticleWorkflow.

Record WorkflowNode := {
  node_code : option jsstring;
  node_name : option jsstring;
  node_status : option jsstring;
  node_message : option jsstring;
}.

(** [n.node_name || n.node_code || `node-${idx + 1}`] *)
Definition label (n : WorkflowNode) (idx : nat) : jsstring :=
  str_or (node_name n) (str_or (node_code n) (lit "node-" ++ decimal (idx + 1))).

(** [current && (current === n.node_code || current === n.node_name)] with
    [const current = props.current_node || ""]. *)
Definition isCurrent (current_node : option jsstring) (n : WorkflowNode) : bool :=
  match str_or current_node [] with
  | [] => false
  | current =>
      bool_decide (node_code n = Some current) || bool_decide (node_name n = Some current)
  end.

(** [key={`${n.node_code || label}-${idx}`}] *)
Definition row_key (n : WorkflowNode) (idx : nat) : jsstring :=
  str_or (node_code n) (label n idx) ++ DASH :: decimal idx.

Record Row := {
  key : jsstring;
  row_label : jsstring;
  current : bool;
  message : option jsstring;      (* shown when [n.node_message] is truthy *)
}.

Definition row (current_node : option jsstring) (idx : nat) (n : WorkflowNode) : Row :=
  {| key := row_key n idx;
     row_label := label n idx;
     current := isCurrent current_node n;
     message := if truthy (node_message n) then node_message n else None |}.

(** [nodes.length ? nodes.map(...) : <the waiting notice>] with
    [const nodes = props.flow_node_list || []]; [None] is the notice. *)
Definition rows (flow_node_list : option (list WorkflowNode)) (current_node : option jsstring)
  : option (list Row) :=
  match default [] flow_node_list with
  | [] => None
  | nodes => Some (imap (row current_node) nodes)
  end.

End ArticleWorkflow.

(* ===================================================================== *)
(** ** MCPWorkflowCard: options, and what a click sends *)
(* ===================================================================== *)

Module MCPWorkflow.

Inductive Status := select | confirm | running | done | cancelled | error.

Record MCPOption := {
  code : option jsstring;
  name : option jsstring;
  desc : option jsstring;
}.

(** [key={`${o.code || o.name}-${idx}`}] *)
Definition option_key (o : MCPOption) (idx : nat) : jsstring :=
  to_display (opt_or (code o) (name o)) ++ DASH :: decimal idx.

(** [o.name || o.code || <the word for "operation">] *)
Definition option_label (o : MCPOption) : jsstring :=
  str_or (name o) (str_or (code o) [25805; 20316]%N).

(** [props.recommended && o.code === props.recommended] *)
Definition is_recommended (recommended : option jsstring) (o : MCPOption) : bool :=
  match recommended with
  | Some (c :: r) => bool_decide (code o = Some (c :: r))
  | _ => false
  end.

(** [onClick={props.status === "select" ? () => sendMessage(String(idx + 1)) : undefined}]:
    the effects of a click on option [idx]. *)
Definition option_click (status : Status) (win : Window) (idx : nat) : list Effect :=
  match status with
  | select => ActionBridge.sendMessage win (decimal (idx + 1))
  | _ => []
  end.

(** The confirm and cancel buttons are rendered in the [confirm] status
    only; a click on one runs its handler. *)
Definition confirm_click (status : Status) (win : Window) (yes : bool) : list Effect :=
  match status with
  | confirm => if yes then ResumeBridge.handleConfirm win else ResumeBridge.handleCancel win
  | _ => []
  end.

End MCPWorkflow.

(* ===================================================================== *)
(** ** SiteReportCard, ReportInsightsCard, ReportProgressCard: which blocks
       a card shows *)
(* ===================================================================== *)

Module SiteReport.
Import Progress.

Record DataQuality := {
  warnings : option (list jsstring);
  notes : option (list jsstring);
}.

Record InsightHypothesis := {
  h_text : option jsstring;
  h_confidence : option jsstring;
  h_next_step : option jsstring;
}.

Record Insights := {
  one_liner : option jsstring;
  evidence : option (list jsstring);
  hypotheses : option (list InsightHypothesis);
}.

Record Action := {
  a_id : option jsstring;
  a_title : option jsstring;
  a_why : option jsstring;
  a_effort : option jsstring;
  a_impact : option jsstring;
}.

Record Trace := {
  todo_summary : option jsstring;
  used_todos : option (list jsstring);
}.

Record StepOutput := {
  so_step : option jsstring;
  so_result : option jsstring;
  so_evidence_ref : option jsstring;
}.

(** The report object.  The metric objects ([summary], [performance],
    [content]) matter to the layout by their presence only. *)
Record Report := {
  report_type : option jsstring;
  has_summary : bool;
  has_performance : bool;
  has_content : bool;
  data_quality : option DataQuality;
  insights : option Insights;
  actions : option (list Action);
  trace : option Trace;
  step_outputs : option (list StepOutput);
}.

Record Props := {
  status : Status;
  steps : option (list jsstring);
  active_step : option Z;
  message : option jsstring;
  report : option Report;
  error_message : option jsstring;
}.

(** The blocks of the card body, in the order the card lists them. *)
Inductive Block :=
| BProgress | BMessage | BTraffic | BEngagement | BPerformance
| BDataQuality | BTrace | BStepOutputs | BInsights | BActions
| BContent | BError.

#[global] Instance Block_eq_dec : EqDecision Block.
Proof. solve_decision. Defined.

#[global] Instance Status_eq_dec : EqDecision Status.
Proof. solve_decision. Defined.

(** [cond ? <block> : null] *)
Definition when (cond : bool) (b : Block) : list Block := if cond then [b] else [].

Definition is_status (s : Status) (props : Props) : bool := bool_decide (status props = s).

(** [const reportType = report?.report_type || "overview"] *)
Definition reportType (props : Props) : jsstring :=
  str_or (report props ≫= report_type) (lit "overview").

Definition type_is (props : Props) (t : string) : bool :=
  bool_decide (reportType props = lit t).

(** [report?.x] for a presence flag, and [report?.x || null] for an object. *)
Definition flag (props : Props) (f : Report -> bool) : bool :=
  match report props with
  | Some r => f r
  | None => false
  end.

Definition part {A : Type} (props : Props) (f : Report -> option A) : option A :=
  report props ≫= f.

(** The body of SiteReportCard. *)
Definition blocks (props : Props) : list Block :=
  when (is_status loading props && (0 <? Z.of_nat (length (default [] (steps props))))) BProgress
  ++ when (is_status loading props && truthy (message props)) BMessage
  ++ when (is_status status_done props && flag props has_summary
           && (type_is props "overview" || type_is props "traffic")) BTraffic
  ++ when (is_status status_done props && flag props has_summary
           && type_is props "engagement") BEngagement
  ++ when (is_status status_done props && flag props has_performance
           && (type_is props "overview" || type_is props "performance")) BPerformance
  ++ when (negb (is_status status_error props)
           && match part props data_quality with
              | Some dq => truthy (warnings dq) || truthy (notes dq)
              | None => false
              end) BDataQuality
  ++ when (negb (is_status status_error props)
           && match part props trace with
              | Some t => truthy (todo_summary t) || truthy (used_todos t)
              | None => false
              end) BTrace
  ++ when (negb (is_status status_error props) && truthy (part props step_outputs)) BStepOutputs
  ++ when (negb (is_status status_error props)
           && match part props insights with
              | Some i => truthy (one_liner i) || truthy (evidence i) || truthy (hypotheses i)
              | None => false
              end) BInsights
  ++ when (negb (is_status status_error props) && truthy (part props actions)) BActions
  ++ when (is_status status_done props && flag props has_content) BContent
  ++ when (is_status status_error props && truthy (error_message props)) BError.

(** The props of ReportInsightsCard. *)
Record InsightsProps := {
  i_status : Status;
  i_message : option jsstring;
  i_report : option Report;
}.

(** [const fake = { status: ..., message: props.message, report: props.report || null }] *)
Definition fake (props : InsightsProps) : Props :=
  {| status := match i_status props with
               | status_error => status_error
               | status_done => status_done
               | loading => loading
               end;
     steps := None;
     active_step := None;
     message := i_message props;
     report := i_report props;
     error_message := None |}.

(** ReportInsightsCard renders [<SiteReportCard {...fake} />]. *)
Definition insights_blocks (props : InsightsProps) : list Block := blocks (fake props).

(** The body of ReportProgressCard: the steps while loading, the message
    whenever there is one, the error box. *)
Definition progress_blocks (props : Props) : list Block :=
  when (is_status loading props && (0 <? Z.of_nat (length (default [] (steps props))))) BProgress
  ++ when (truthy (message props)) BMessage
  ++ when (is_status status_error props && truthy (error_message props)) BError.

(** The metric blocks. *)
Definition is_metric (b : Block) : bool :=
  match b with
  | BTraffic | BEngagement | BPerformance | BContent => true
  | _ => false
  end.

End SiteReport.

(* ===================================================================== *)
(** ** SEOPlannerCard: a click on the fix control of a task row *)
(* ===================================================================== *)

Module SEOFix.
Import SEO.

(** The page as the fix button queries it. *)
Record FixDocument := {
  page : Document;
  (* document.querySelector('textarea[placeholder*="input"], textarea[name="input"], form textarea') *)
  studio_textarea : option Element;
  (* document.querySelector('button[aria-label*="Submit"], button[aria-label*="send"]') *)
  labelled_button : option ButtonEl;
}.

Inductive FixEffect :=
| FixEvent (d : FixDetail)                          (* window.dispatchEvent(new CustomEvent("copilot:send", { detail })) *)
| FixSetNative (el : Element) (text : jsstring)     (* nativeInputValueSetter.call(textarea, chatMessage) *)
| FixSetProp (el : Element) (text : jsstring)       (* textarea.value = chatMessage *)
| FixInput (el : Element)                           (* textarea.dispatchEvent(new Event('input', ...)) *)
| FixClickLater (ms : Z) (b : ButtonEl).            (* setTimeout(() => submitBtn.click(), 100) *)

(** [onClick] of the button of an [article] task. *)
Definition fix_click (doc : FixDocument) (t : SEOTask) : list FixEffect :=
  FixEvent (fix_detail t)
  :: match studio_textarea doc with
     | None => []
     | Some textarea =>
         (if value_setter (page doc) TEXTAREA
          then FixSetNative textarea (chatMessage t)
          else FixSetProp textarea (chatMessage t))
         :: FixInput textarea
         :: match
              match closest_form (page doc) textarea
                    ≫= (fun f => form_querySelector (page doc) f sel_submit) with
              | Some b => Some b
              | None => labelled_button doc
              end
            with
            | Some submitBtn => [FixClickLater 100 submitBtn]
            | None => []
            end
     end.

(** The control of a task row: the button for [fix_action === "article"],
    otherwise a link whose click is cancelled. *)
Definition row_click (doc : FixDocument) (t : SEOTask) : list FixEffect :=
  match fix_action t with
  | Some fix_article => fix_click doc t
  | _ => []
  end.

(** The texts a trace puts into the page or the event. *)
Definition fix_text (e : FixEffect) : option jsstring :=
  match e with
  | FixEvent d => Some (SEO.message d)
  | FixSetNative _ t | FixSetProp _ t => Some t
  | _ => None
  end.

Definition is_event (e : FixEffect) : bool :=
  match e with
  | FixEvent _ => true
  | _ => false
  end.

End SEOFix.

(* ===================================================================== *)
(** ** Observations on traces *)
(* ===================================================================== *)

Module Traces.

(** How many effects of a trace belong to strategy [s]. *)
Definition count_of (s : Strategy) (tr : list Effect) : nat :=
  length (List.filter (fun e => bool_decide (strategy_of e = s)) tr).

(** The host functions a trace calls, in call order. *)
Definition call_names (tr : list Effect) : list string :=
  omap (fun e => match e with CallGlobal fn _ _ => Some fn | _ => None end) tr.

(** The effects of a trace on the document, in order. *)
Definition dom_part (tr : list Effect) : list Effect :=
  List.filter (fun e => bool_decide (strategy_of e = DomManipulation)) tr.

End Traces.

Export Traces.

(* ===================================================================== *)
(** ** More concrete inputs *)
(* ===================================================================== *)

Module MoreExamples.
Import Examples.

Definition the_form : FormEl := {| form_id := 1; has_requestSubmit := true |}.
Definition old_form : FormEl := {| form_id := 2; has_requestSubmit := false |}.
Definition form_button : ButtonEl := {| button_id := 1 |}.
Definition page_button : ButtonEl := {| button_id := 2 |}.
Definition the_input : Element := {| el_id := 2; tagName := INPUT |}.

(** A page with a textarea inside a form that has a submit button, and a
    text input besides. *)
Definition form_document : Document :=
  {| querySelector := fun sel =>
       match sel with sel_textarea => Some the_textarea | sel_input_text => Some the_input end;
     closest_form := fun _ => Some the_form;
     form_querySelector := fun _ sel =>
       match sel with sel_submit => Some form_button | sel_non_plain => None end;
     page_submit_button := Some page_button;
     value_setter := fun _ => true |}.

(** A page whose textarea sits in a form without any button. *)
Definition buttonless_document : Document :=
  {| querySelector := fun sel =>
       match sel with sel_textarea => Some the_textarea | sel_input_text => None end;
     closest_form := fun _ => Some old_form;
     form_querySelector := fun _ _ => None;
     page_submit_button := None;
     value_setter := fun _ => false |}.

(** A host with a working [sendMessage] and no resume function. *)
Definition send_only_window : Window :=
  {| globals := <["sendMessage"%string := GFunction Returns]> ∅;
     document := textarea_document |}.

(** A host where every send function exists and throws. *)
Definition throwing_window : Window :=
  {| globals := <["__LANGGRAPH_SEND_MESSAGE__"%string := GFunction Throws]>
                  (<["__LANGGRAPH_SEND__"%string := GFunction Throws]>
                  (<["sendMessage"%string := GFunction Throws]>
                  (<["sendChatMessage"%string := GFunction Throws]> ∅)));
     document := empty_document |}.

Definition node_fetch : ArticleWorkflow.WorkflowNode :=
  {| ArticleWorkflow.node_code := Some (lit "fetch");
     ArticleWorkflow.node_name := None;
     ArticleWorkflow.node_status := Some (lit "success");
     ArticleWorkflow.node_message := None |}.

Definition node_anonymous : ArticleWorkflow.WorkflowNode :=
  {| ArticleWorkflow.node_code := None;
     ArticleWorkflow.node_name := None;
     ArticleWorkflow.node_status := None;
     ArticleWorkflow.node_message := None |}.

Definition studio_page : SEOFix.FixDocument :=
  {| SEOFix.page := form_document;
     SEOFix.studio_textarea := Some the_textarea;
     SEOFix.labelled_button := None |}.

Definition error_report : SiteReport.Props :=
  {| SiteReport.status := Progress.status_error;
     SiteReport.steps := Some [lit "fetch"];
     SiteReport.active_step := Some 1;
     SiteReport.message := Some (lit "working");
     SiteReport.report :=
       Some {| SiteReport.report_type := Some (lit "traffic");
               SiteReport.has_summary := true;
               SiteReport.has_performance := true;
               SiteReport.has_content := true;
               SiteReport.data_quality := None;
               SiteReport.insights := None;
               SiteReport.actions := Some [];
               SiteReport.trace := None;
               SiteReport.step_outputs := None |};
     SiteReport.error_message := Some (lit "failed") |}.

Definition traffic_report : SiteReport.Props :=
  {| SiteReport.status := Progress.status_done;
     SiteReport.steps := None;
     SiteReport.active_step := None;
     SiteReport.message := None;
     SiteReport.report := SiteReport.report error_report;
     SiteReport.error_message := None |}.

(** A form whose topic holds the characters that end an HTML comment. *)
Definition form_with_terminator : Clarify.FormState :=
  {| Clarify.topic := lit "x -->"; Clarify.contentFormat := lit "B";
     Clarify.audience := lit "C"; Clarify.tone := lit "D";
     Clarify.submitting := false |}.

Definition option_publish : MCPWorkflow.MCPOption :=
  {| MCPWorkflow.code := Some (lit "publish"); MCPWorkflow.name := None;
     MCPWorkflow.desc := None |}.

Definition option_blank : MCPWorkflow.MCPOption :=
  {| MCPWorkflow.code := None; MCPWorkflow.name := None; MCPWorkflow.desc := None |}.

End MoreExamples.

(* ===================================================================== *)
(** * Properties *)
(* ===================================================================== *)

(** ** Progress tracker *)

Module ProgressFacts.
Import Progress.

Lemma cursor_absent : cursor None = 1.
Proof. reflexivity. Qed.

Lemma cursor_zero : cursor (Some 0) = 1.
Proof. reflexivity. Qed.

Lemma cursor_nonzero (n : Z) : n <> 0 -> cursor (Some n) = n.
Proof. destruct n; [congruence | reflexivity | reflexivity]. Qed.

Lemma render_steps_length steps a : length (render_steps steps a) = length steps.
Proof. unfold render_steps. apply length_imap. Qed.

Lemma render_steps_lookup (steps : list jsstring) a (idx : nat) :
  render_steps steps a !! idx = (fun s => (step_state a idx, s)) <$> steps !! idx.
Proof. unfold render_steps. rewrite list_lookup_imap. reflexivity. Qed.

Lemma step_state_cases a idx :
  let i := Z.of_nat idx + 1 in
  (i < cursor a /\ step_state a idx = done)
  \/ (i = cursor a /\ step_state a idx = active)
  \/ (i > cursor a /\ step_state a idx = pending).
Proof.
  unfold step_state, isDone, isActive, cursor. cbn zeta.
  destruct (Z.gtb_spec (num_or a 1) (Z.of_nat idx + 1)) as [Hgt | Hle].
  - left. split; [lia | reflexivity].
  - destruct (Z.eqb_spec (num_or a 1) (Z.of_nat idx + 1)) as [Heq | Hne].
    + right; left. split; [lia | reflexivity].
    + right; right. split; [lia | reflexivity].
Qed.

(** C1, as stated, fails for [active_step = 0]: the cursor falls back to 1,
    so the first step is rendered active, not pending, although 1 > 0. *)
Lemma C1_active_step_zero_counterexample :
  render_steps [lit "fetch"; lit "analyze"] (Some 0)
    = [(active, lit "fetch"); (pending, lit "analyze")]
  /\ ~ (step_state (Some 0) 0 = pending <-> Z.of_nat 0 + 1 > 0).
Proof.
  split; [reflexivity |].
  intros [_ H]. specialize (H ltac:(lia)). discriminate H.
Qed.

(** Past the last step: every step is done. *)
Lemma all_done_beyond_last (steps : list jsstring) (a : option Z) :
  Z.of_nat (length steps) < cursor a ->
  render_steps steps a = List.map (fun s => (done, s)) steps.
Proof.
  intros Hn. apply list_eq. intros idx.
  rewrite render_steps_lookup, list_lookup_fmap.
  destruct (steps !! idx) as [s |] eqn:Hs; [| reflexivity]. cbn.
  apply lookup_lt_Some in Hs.
  pose proof (step_state_cases a idx) as H. cbn zeta in H.
  destruct H as [[_ ->] | [[? _] | [? _]]]; [reflexivity | lia | lia].
Qed.

(** C1 (amended): with the cursor [c = active_step || 1] (so an absent
    active_step and active_step = 0 both give 1), the i-th step (1-based)
    of every step list is rendered done iff i < c, active iff i = c and
    pending iff i > c, for every value of active_step, in range or not; in
    particular a cursor past the last step renders every step done. *)
Theorem C1_step_state_by_cursor (steps : list jsstring) (a : option Z) (idx : nat) :
  let i := Z.of_nat idx + 1 in
  let c := cursor a in
  render_steps steps a !! idx = (fun s => (step_state a idx, s)) <$> steps !! idx
  /\ (step_state a idx = done <-> i < c)
  /\ (step_state a idx = active <-> i = c)
  /\ (step_state a idx = pending <-> i > c)
  /\ c = match a with None | Some 0 => 1 | Some n => n end
  /\ (Z.of_nat (length steps) < c ->
      render_steps steps a = List.map (fun s => (done, s)) steps).
Proof.
  cbn zeta. split; [apply render_steps_lookup |].
  pose proof (step_state_cases a idx) as H. cbn zeta in H.
  repeat split; try reflexivity; try apply all_done_beyond_last;
    destruct H as [[H1 H2] | [[H1 H2] | [H1 H2]]]; rewrite H2;
    solve [ intros; lia | intros; discriminate | intros; reflexivity
          | intros ?; exfalso; lia ].
Qed.

Lemma C1_step_state_by_cursor_witness :
  render_steps [lit "fetch"; lit "analyze"; lit "summarize"] (Some 2) !! 1%nat
    = Some (active, lit "analyze")
  /\ step_state (Some 2) 0 = done
  /\ step_state (Some 2) 2 = pending.
Proof.
  destruct (C1_step_state_by_cursor [lit "fetch"; lit "analyze"; lit "summarize"] (Some 2) 0)
    as (_ & Hdone & _).
  destruct (C1_step_state_by_cursor [lit "fetch"; lit "analyze"; lit "summarize"] (Some 2) 1)
    as (Hrow & _ & Hactive & _).
  destruct (C1_step_state_by_cursor [lit "fetch"; lit "analyze"; lit "summarize"] (Some 2) 2)
    as (_ & _ & _ & Hpending & _).
  split; [| split].
  - rewrite Hrow. reflexivity.
  - apply Hdone. reflexivity.
  - apply Hpending. reflexivity.
Defined.

(** Below the range (negative cursor): every step is pending. *)
Lemma all_pending_below_first (steps : list jsstring) (n : Z) :
  n < 0 ->
  render_steps steps (Some n) = List.map (fun s => (pending, s)) steps.
Proof.
  intros Hn. apply list_eq. intros idx.
  rewrite render_steps_lookup, list_lookup_fmap.
  destruct (steps !! idx) as [s |]; [| reflexivity]. cbn.
  pose proof (step_state_cases (Some n) idx) as H. cbn zeta in H.
  rewrite cursor_nonzero in H by lia.
  destruct H as [[? _] | [[? _] | [_ ->]]]; [lia | lia | reflexivity].
Qed.

(** The report scenario: three steps, cursor on the second. *)
Example report_progress_scenario :
  progress_section {| status := loading;
                      steps := Some [lit "fetch"; lit "analyze"; lit "summarize"];
                      active_step := Some 2 |}
  = Some [(done, lit "fetch"); (active, lit "analyze"); (pending, lit "summarize")].
Proof. reflexivity. Qed.

End ProgressFacts.

(** ** Card registry *)

Module RegistryFacts.
Import Registry.

Lemma keys_NoDup : NoDup keys.
Proof. apply (bool_decide_unpack (NoDup keys)). vm_compute. exact I. Qed.

Lemma lookup_card_Some key r : lookup_card key = Some r <-> (key, r) ∈ entries.
Proof.
  unfold lookup_card, ComponentMap. symmetry.
  apply elem_of_list_to_map. apply keys_NoDup.
Qed.


Lemma get_own key r : lookup_card key = Some r -> RegistryObject.get key = RegistryObject.Card r.
Proof. unfold lookup_card, RegistryObject.get. by intros ->. Qed.


(** No name of [Object.prototype] is a key of the registry. *)
Lemma prototype_names_not_keys :
  Forall (fun name => name ∉ keys) RegistryObject.Object_prototype_names.
Proof.
  apply (bool_decide_unpack
           (Forall (fun name => name ∉ keys) RegistryObject.Object_prototype_names)).
  vm_compute. exact I.
Qed.




(** A key of the registry resolves to its card, also through the property
    access: the own property shadows whatever is inherited. *)
Example get_known_keys :
  RegistryObject.get "seo_planner" = RegistryObject.Card SEOPlannerCard
  /\ RegistryObject.get "card" = RegistryObject.Card IntentRouterCard.
Proof. split; reflexivity. Qed.

(** C9: "card" and "intent_router" resolve to the same renderer, and they
    are the only two distinct keys that share a renderer: "card" is the
    one alias of the registry. *)
Theorem C9_card_is_the_only_alias :
  lookup_card "card" = Some IntentRouterCard
  /\ lookup_card "intent_router" = Some IntentRouterCard
  /\ forall (k1 k2 : string) (r : Renderer),
       k1 <> k2 -> lookup_card k1 = Some r -> lookup_card k2 = Some r ->
       r = IntentRouterCard
       /\ ((k1 = "card" /\ k2 = "intent_router") \/ (k1 = "intent_router" /\ k2 = "card"))%string.
Proof.
  split; [reflexivity |]. split; [reflexivity |].
  intros k1 k2 r Hne H1 H2.
  apply lookup_card_Some, list_elem_of_In in H1.
  apply lookup_card_Some, list_elem_of_In in H2.
  cbn in H1, H2.
  repeat (destruct H1 as [H1 | H1]; [inversion H1; subst; clear H1 |]);
    try contradiction;
    repeat (destruct H2 as [H2 | H2]; [inversion H2; subst; clear H2 |]);
    try contradiction; try congruence; auto.
Qed.

Lemma C9_card_is_the_only_alias_witness :
  lookup_card "card" = lookup_card "intent_router"
  /\ lookup_card "seo_planner" <> lookup_card "card".
Proof.
  destruct C9_card_is_the_only_alias as (Hcard & Hrouter & Honly).
  split; [by rewrite Hcard, Hrouter |].
  intros Heq. rewrite Hcard in Heq.
  destruct (Honly "seo_planner" "card" IntentRouterCard ltac:(discriminate) Heq Hcard)
    as [_ [[? _] | [? _]]]; discriminate.
Defined.

End RegistryFacts.

(** ** The probe loop *)

Module ProbeFacts.

#[local] Arguments failed_calls : simpl never.
#[local] Arguments throwers : simpl never.

Lemma failed_calls_cons_throws win fn fns a :
  function_at win fn = Some Throws ->
  failed_calls win (fn :: fns) a = CallGlobal fn a Throws :: failed_calls win fns a.
Proof.
  intros H. unfold failed_calls, throwers. simpl.
  rewrite bool_decide_eq_true_2 by exact H. reflexivity.
Qed.

Lemma failed_calls_cons_other win fn fns a :
  function_at win fn <> Some Throws ->
  failed_calls win (fn :: fns) a = failed_calls win fns a.
Proof.
  intros H. unfold failed_calls, throwers. simpl.
  rewrite bool_decide_eq_false_2 by exact H. reflexivity.
Qed.

Lemma failed_calls_app win pre post a :
  failed_calls win (pre ++ post) a = failed_calls win pre a ++ failed_calls win post a.
Proof.
  unfold failed_calls, throwers. rewrite List.filter_app, List.map_app. reflexivity.
Qed.

(** The loop stops at the first function that returns; before it, it has
    called exactly the functions that throw. *)
Lemma probe_spec win fns a :
  match probe win fns a with
  | (tr, true) =>
      exists pre fn post,
        fns = pre ++ fn :: post
        /\ function_at win fn = Some Returns
        /\ none_returns win pre
        /\ tr = failed_calls win pre a ++ [CallGlobal fn a Returns]
  | (tr, false) =>
      none_returns win fns /\ tr = failed_calls win fns a
  end.
Proof.
  induction fns as [| fn rest IH]; cbn.
  - split; [intros ? [] | reflexivity].
  - destruct (function_at win fn) as [[] |] eqn:Hfn.
    + exists [], fn, rest. repeat split; [exact Hfn | intros ? []].
    + destruct (probe win rest a) as [tr [|]].
      * destruct IH as (pre & g & post & -> & Hg & Hpre & ->).
        exists (fn :: pre), g, post. repeat split; [exact Hg | |].
        -- intros f [<- | Hf]; [congruence | by apply Hpre].
        -- rewrite failed_calls_cons_throws by exact Hfn. reflexivity.
      * destruct IH as [Hnone ->]. split.
        -- intros f [<- | Hf]; [congruence | by apply Hnone].
        -- rewrite failed_calls_cons_throws by exact Hfn. reflexivity.
    + destruct (probe win rest a) as [tr [|]].
      * destruct IH as (pre & g & post & -> & Hg & Hpre & ->).
        exists (fn :: pre), g, post. repeat split; [exact Hg | |].
        -- intros f [<- | Hf]; [congruence | by apply Hpre].
        -- rewrite failed_calls_cons_other by congruence. reflexivity.
      * destruct IH as [Hnone ->]. split.
        -- intros f [<- | Hf]; [congruence | by apply Hnone].
        -- rewrite failed_calls_cons_other by congruence. reflexivity.
Qed.

Lemma probe_returned_iff win fns a :
  (probe win fns a).2 = true <-> exists fn, In fn fns /\ function_at win fn = Some Returns.
Proof.
  pose proof (probe_spec win fns a) as H.
  destruct (probe win fns a) as [tr [|]]; cbn; split.
  - intros _. destruct H as (pre & fn & post & -> & Hfn & _).
    exists fn. split; [apply in_elt | exact Hfn].
  - reflexivity.
  - discriminate.
  - intros (fn & Hin & Hfn). destruct H as [Hnone _]. by apply Hnone in Hin.
Qed.

Lemma ran_app s tr1 tr2 : ran s (tr1 ++ tr2) = ran s tr1 || ran s tr2.
Proof. unfold ran. apply existsb_app. Qed.

Lemma ran_failed_calls s win fns a :
  s <> GlobalProbe -> ran s (failed_calls win fns a) = false.
Proof.
  intros Hs. unfold failed_calls, ran.
  induction (throwers win fns) as [| f l IH]; [reflexivity |].
  cbn. rewrite IH. rewrite bool_decide_eq_false_2 by congruence. reflexivity.
Qed.

Lemma in_failed_calls win fns a e :
  In e (failed_calls win fns a) ->
  exists fn, In fn fns /\ function_at win fn = Some Throws /\ e = CallGlobal fn a Throws.
Proof.
  unfold failed_calls, throwers. rewrite in_map_iff.
  intros (fn & <- & Hin). apply filter_In in Hin as [Hin Hd].
  apply bool_decide_eq_true_1 in Hd. eauto.
Qed.

End ProbeFacts.

(** ** Action Bridge *)

Module ActionBridgeFacts.
Import ActionBridge ProbeFacts Examples.

#[local] Arguments failed_calls : simpl never.

(** The two shapes of a trace of [sendMessage]. *)
Lemma sendMessage_cases win text :
  (exists pre fn post,
      globalFns = pre ++ fn :: post
      /\ function_at win fn = Some Returns
      /\ none_returns win pre
      /\ sendMessage win text
         = failed_calls win pre (AText text) ++ [CallGlobal fn (AText text) Returns])
  \/ (none_returns win globalFns
      /\ sendMessage win text
         = failed_calls win globalFns (AText text)
           ++ DispatchWindowEvent "langgraph:send" (DText text)
           :: manipulate (document win) selectors text).
Proof.
  unfold sendMessage.
  pose proof (probe_spec win globalFns (AText text)) as H.
  destruct (probe win globalFns (AText text)) as [tr [|]].
  - left. exact H.
  - right. destruct H as [Hnone ->]. split; [exact Hnone | reflexivity].
Qed.

(** The DOM strategy acts exactly when the document has an element for one
    of the selectors. *)
Lemma manipulate_ran doc text :
  ran DomManipulation (manipulate doc selectors text) = true
  <-> exists sel, In sel selectors /\ is_Some (querySelector doc sel).
Proof.
  unfold selectors. cbn. split.
  - destruct (querySelector doc sel_textarea) eqn:E1.
    + intros _. exists sel_textarea. rewrite E1. split; [by left | by eexists].
    + destruct (querySelector doc sel_input_text) eqn:E2.
      * intros _. exists sel_input_text. rewrite E2. split; [right; by left | by eexists].
      * discriminate.
  - intros (sel & Hin & [el Hel]).
    destruct (querySelector doc sel_textarea) eqn:E1.
    + unfold fill_input. cbn. destruct (value_setter _ _); reflexivity.
    + destruct Hin as [<- | [<- | []]]; [congruence |].
      rewrite Hel. unfold fill_input. cbn. destruct (value_setter _ _); reflexivity.
Qed.

Lemma manipulate_only_dom doc sels text s :
  s <> DomManipulation -> ran s (manipulate doc sels text) = false.
Proof.
  intros Hs. induction sels as [| sel rest IH]; [reflexivity |].
  cbn. destruct (querySelector doc sel); [| exact IH].
  unfold fill_input, ran. cbn.
  destruct (value_setter _ _); cbn;
    rewrite !bool_decide_eq_false_2 by congruence; reflexivity.
Qed.

(** C5: when one of the probed global send functions exists on the host
    and returns normally, the trace of [sendMessage] consists of calls to
    probed functions only and ends with a call that returned: no event is
    broadcast and the document is not touched. *)
Theorem C5_global_function_stops_chain (win : Window) (text : jsstring) :
  (exists fn, In fn globalFns /\ globals win !! fn = Some (GFunction Returns)) ->
  let tr := sendMessage win text in
  ran EventBroadcast tr = false
  /\ ran DomManipulation tr = false
  /\ (forall e, In e tr -> exists fn o, In fn globalFns /\ e = CallGlobal fn (AText text) o)
  /\ exists fn, last tr = Some (CallGlobal fn (AText text) Returns).
Proof.
  intros (g & Hg & Hret). cbn zeta.
  assert (Hfun : function_at win g = Some Returns).
  { unfold function_at. rewrite Hret. reflexivity. }
  destruct (sendMessage_cases win text) as
    [(pre & fn & post & Hfns & Hfn & Hpre & ->) | [Hnone _]].
  2: { exfalso. exact (Hnone g Hg Hfun). }
  repeat split.
  - rewrite ran_app, ran_failed_calls by discriminate. reflexivity.
  - rewrite ran_app, ran_failed_calls by discriminate. reflexivity.
  - intros e He. apply in_app_or in He as [He | [<- | []]].
    + apply in_failed_calls in He as (f & Hf & _ & ->).
      exists f, Throws. split; [| reflexivity].
      rewrite Hfns. apply in_or_app. by left.
    + exists fn, Returns. split; [| reflexivity].
      rewrite Hfns. apply in_elt.
  - exists fn. apply last_snoc.
Qed.

Lemma C5_global_function_stops_chain_witness :
  sendMessage studio_window hello
  = [ CallGlobal "__LANGGRAPH_SEND_MESSAGE__" (AText hello) Throws;
      CallGlobal "sendMessage" (AText hello) Returns ]
  /\ ran EventBroadcast (sendMessage studio_window hello) = false
  /\ ran DomManipulation (sendMessage studio_window hello) = false.
Proof.
  split; [reflexivity |].
  assert (H : exists fn, In fn globalFns
                         /\ globals studio_window !! fn = Some (GFunction Returns)).
  { exists "sendMessage"%string. split; [cbn; tauto | reflexivity]. }
  destruct (C5_global_function_stops_chain studio_window hello H) as (H1 & H2 & _).
  split; [exact H1 | exact H2].
Defined.

(** C2, as stated, fails: on a host without send functions and with a
    textarea, the event broadcast is dispatched and the direct
    manipulation of the textarea runs after it. *)
Lemma C2_broadcast_then_dom_counterexample :
  sendMessage textarea_window hello
  = [ DispatchWindowEvent "langgraph:send" (DText hello);
      SetValueNative the_textarea hello;
      DispatchInputEvent the_textarea "input";
      DispatchInputEvent the_textarea "change";
      SetTimeout 50 the_textarea ]
  /\ ran EventBroadcast (sendMessage textarea_window hello) = true
  /\ ran DomManipulation (sendMessage textarea_window hello) = true.
Proof. repeat split; reflexivity. Qed.

(** C2 (amended): in the Action Bridge chain a global send function that
    returns normally ends the chain (nothing is broadcast, the document is
    not touched); the event broadcast does not end it: whenever it is
    dispatched, the direct manipulation is attempted right after it, and
    it acts exactly when the document has an element for one of the
    selectors. *)
Theorem C2_only_global_function_ends_chain (win : Window) (text : jsstring) :
  let tr := sendMessage win text in
  ((exists fn, In (CallGlobal fn (AText text) Returns) tr) ->
     ran EventBroadcast tr = false /\ ran DomManipulation tr = false)
  /\ (ran EventBroadcast tr = true ->
        tr = failed_calls win globalFns (AText text)
             ++ DispatchWindowEvent "langgraph:send" (DText text)
             :: manipulate (document win) selectors text)
  /\ (ran EventBroadcast tr = true ->
        (ran DomManipulation tr = true
         <-> exists sel, In sel selectors /\ is_Some (querySelector (document win) sel))).
Proof.
  cbn zeta.
  destruct (sendMessage_cases win text) as
    [(pre & fn & post & Hfns & Hfn & Hpre & ->) | [Hnone ->]].
  - assert (Hev : forall s, s <> GlobalProbe ->
              ran s (failed_calls win pre (AText text) ++ [CallGlobal fn (AText text) Returns]) = false).
    { intros s Hs. rewrite ran_app, ran_failed_calls by exact Hs.
      unfold ran. cbn. rewrite bool_decide_eq_false_2 by congruence. reflexivity. }
    split; [| split].
    + intros _. split; apply Hev; discriminate.
    + rewrite Hev by discriminate. discriminate.
    + rewrite Hev by discriminate. discriminate.
  - split; [| split].
    + intros (fn & Hin). exfalso.
      apply in_app_or in Hin as [Hin | [Hin | Hin]].
      * apply in_failed_calls in Hin as (f & _ & _ & Hf). discriminate Hf.
      * discriminate Hin.
      * assert (Hr : ran GlobalProbe (manipulate (document win) selectors text) = true).
        { unfold ran. apply existsb_exists. eexists. split; [exact Hin |]. reflexivity. }
        rewrite manipulate_only_dom in Hr by discriminate. discriminate Hr.
    + reflexivity.
    + intros _. rewrite ran_app, ran_failed_calls by discriminate.
      unfold ran at 1. cbn [existsb strategy_of orb].
      rewrite bool_decide_eq_false_2 by discriminate. cbn [orb].
      apply manipulate_ran.
Qed.

Lemma C2_only_global_function_ends_chain_witness :
  ran EventBroadcast (sendMessage textarea_window hello) = true
  /\ ran DomManipulation (sendMessage textarea_window hello) = true.
Proof.
  assert (Hev : ran EventBroadcast (sendMessage textarea_window hello) = true) by reflexivity.
  destruct (C2_only_global_function_ends_chain textarea_window hello) as (_ & _ & H).
  split; [exact Hev |].
  apply (H Hev). exists sel_textarea. split; [cbn; tauto | by eexists].
Defined.

(** What the delayed submit does on the example pages: with neither a
    button nor a form, the Enter key is synthesised. *)
Example delayed_submit_bare :
  delayed_submit textarea_document the_textarea
  = [ DispatchKey the_textarea keydown; DispatchKey the_textarea keypress;
      DispatchKey the_textarea keyup ].
Proof. reflexivity. Qed.

End ActionBridgeFacts.

(** ** Resume Bridge *)

Module ResumeBridgeFacts.
Import ActionBridge ResumeBridge ProbeFacts Examples.

#[local] Arguments failed_calls : simpl never.

(** Strategies 1 and 2 together behave as one probe over [resume_chain]. *)
Lemma resumeInterrupt_as_probe win value :
  resumeInterrupt win value
  = let '(calls, returned) := probe win resume_chain (AResume value) in
    if returned then calls
    else calls
         ++ DispatchWindowEvent "langgraph:resume" (DResume value)
         :: sendMessage win (if confirmed value then text_confirm else text_cancel).
Proof.
  unfold resumeInterrupt, resume_chain. cbn [probe].
  destruct (function_at win "__LANGGRAPH_RESUME__") as [[] |]; [reflexivity | |].
  - destruct (probe win resumeFns (AResume value)) as [tr [|]]; reflexivity.
  - destruct (probe win resumeFns (AResume value)) as [tr [|]]; reflexivity.
Qed.

(** C7, as stated, fails: on a host without resume functions the event
    broadcast (strategy 3) is dispatched and the Action Bridge (strategy 4)
    still runs after it, here with its own broadcast of the confirm text. *)
Lemma C7_event_then_text_counterexample :
  resumeInterrupt bare_window {| confirmed := true |}
  = [ DispatchWindowEvent "langgraph:resume" (DResume {| confirmed := true |});
      DispatchWindowEvent "langgraph:send" (DText text_confirm) ]
  /\ handleCancel textarea_window
     = [ DispatchWindowEvent "langgraph:resume" (DResume {| confirmed := false |});
         DispatchWindowEvent "langgraph:send" (DText text_cancel);
         SetValueNative the_textarea text_cancel;
         DispatchInputEvent the_textarea "input";
         DispatchInputEvent the_textarea "change";
         SetTimeout 50 the_textarea ].
Proof. split; reflexivity. Qed.

(** C7 (amended): the decision value is offered to the dedicated resume
    function first and then to the alternative resume functions, in order;
    the first of them that returns normally ends the chain, after calls to
    the throwing ones before it only.  When none returns normally, the
    named event carrying the decision value is broadcast and then, in
    every case, the Action Bridge is run with the fixed confirm or cancel
    text. *)
Theorem C7_resume_chain (win : Window) (value : ResumeValue) :
  let tr := resumeInterrupt win value in
  let text := if confirmed value then text_confirm else text_cancel in
  resume_chain = [ "__LANGGRAPH_RESUME__"; "resumeThread"; "resume"; "sendResume" ]%string
  /\ ((exists fn, In fn resume_chain /\ globals win !! fn = Some (GFunction Returns)) ->
        exists pre fn post,
          resume_chain = pre ++ fn :: post
          /\ none_returns win pre
          /\ tr = failed_calls win pre (AResume value) ++ [CallGlobal fn (AResume value) Returns])
  /\ (none_returns win resume_chain ->
        tr = failed_calls win resume_chain (AResume value)
             ++ DispatchWindowEvent "langgraph:resume" (DResume value)
             :: sendMessage win text).
Proof.
  cbn zeta. split; [reflexivity |].
  rewrite resumeInterrupt_as_probe.
  pose proof (probe_spec win resume_chain (AResume value)) as H.
  destruct (probe win resume_chain (AResume value)) as [calls [|]].
  - destruct H as (pre & fn & post & Hchain & Hfn & Hpre & ->). split.
    + intros _. exists pre, fn, post. repeat split; [exact Hchain | exact Hpre].
    + intros Hnone. exfalso. apply (Hnone fn); [| exact Hfn].
      rewrite Hchain. apply in_elt.
  - destruct H as [Hnone ->]. split.
    + intros (fn & Hin & Hg). exfalso. apply (Hnone fn Hin).
      unfold function_at. rewrite Hg. reflexivity.
    + reflexivity.
Qed.

Lemma C7_resume_chain_witness :
  none_returns bare_window resume_chain
  /\ resumeInterrupt bare_window {| confirmed := true |}
     = failed_calls bare_window resume_chain (AResume {| confirmed := true |})
       ++ DispatchWindowEvent "langgraph:resume" (DResume {| confirmed := true |})
       :: sendMessage bare_window text_confirm.
Proof.
  assert (H : none_returns bare_window resume_chain).
  { intros fn Hin. cbn in Hin.
    destruct Hin as [<- | [<- | [<- | [<- | []]]]]; vm_compute; discriminate. }
  split; [exact H |].
  exact (proj2 (proj2 (C7_resume_chain bare_window {| confirmed := true |})) H).
Defined.

End ResumeBridgeFacts.

(** ** JSON text *)

Module JSONFacts.
Import JSON.
Local Open Scope N_scope.

Lemma hex_value_digit d : d < 16 -> hex_value (hex_digit d) = Some d.
Proof.
  intros Hd. unfold hex_digit, hex_value.
  destruct (N.ltb_spec d 10) as [Hlt | Hge].
  - replace ((48 <=? 48 + d) && (48 + d <=? 57)) with true.
    + f_equal. lia.
    + symmetry. apply andb_true_intro. split; apply N.leb_le; lia.
  - replace ((48 <=? 87 + d) && (87 + d <=? 57)) with false.
    + replace ((97 <=? 87 + d) && (87 + d <=? 102)) with true.
      * f_equal. lia.
      * symmetry. apply andb_true_intro. split; apply N.leb_le; lia.
    + symmetry. apply andb_false_intro2. apply N.leb_gt. lia.
Qed.

Lemma hex4_digits c :
  c < 65536 ->
  hex4 (hex_digit (c / 4096 mod 16)) (hex_digit (c / 256 mod 16))
       (hex_digit (c / 16 mod 16)) (hex_digit (c mod 16)) = Some c.
Proof.
  intros Hc. unfold hex4.
  rewrite !hex_value_digit by (apply N.mod_lt; discriminate).
  f_equal.
  pose proof (N.div_mod c 16 ltac:(discriminate)) as E0.
  pose proof (N.div_mod (c / 16) 16 ltac:(discriminate)) as E1.
  pose proof (N.div_mod (c / 16 / 16) 16 ltac:(discriminate)) as E2.
  rewrite !N.Div0.div_div in E1, E2. change (16 * 16) with 256 in *.
  change (256 * 16) with 4096 in *.
  assert (H3 : c / 4096 < 16) by (apply N.Div0.div_lt_upper_bound; lia).
  rewrite (N.mod_small (c / 4096) 16) by exact H3.
  pose proof (N.div_mod (c / 256) 16 ltac:(discriminate)) as E3.
  rewrite N.Div0.div_div in E3. change (256 * 16) with 4096 in E3.
  lia.
Qed.

(** Reading one unescaped character. *)
Lemma read_raw c rest :
  32 <= c -> c <> QUOTE -> c <> BACKSLASH ->
  read_string_body (c :: rest)
  = match read_string_body rest with
    | Some (cs, tl) => Some (c :: cs, tl)
    | None => None
    end.
Proof.
  intros H32 Hq Hb. cbn [read_string_body].
  rewrite (proj2 (N.eqb_neq c QUOTE) Hq), (proj2 (N.eqb_neq c BACKSLASH) Hb).
  rewrite (proj2 (N.ltb_ge c 32) H32). reflexivity.
Qed.

Lemma read_unicode_escape a b c d rest :
  read_string_body (BACKSLASH :: 117 :: a :: b :: c :: d :: rest)
  = match hex4 a b c d with
    | Some u =>
        match read_string_body rest with
        | Some (cs, tl) => Some (u :: cs, tl)
        | None => None
        end
    | None => None
    end.
Proof. reflexivity. Qed.

(** Reading back what [quote_unit] wrote gives the character. *)
Lemma read_quote_unit c rest :
  read_string_body (quote_unit c ++ rest)
  = match read_string_body rest with
    | Some (cs, tl) => Some (c :: cs, tl)
    | None => None
    end.
Proof.
  unfold quote_unit.
  destruct (N.eqb_spec c 8) as [-> | H8]; [reflexivity |].
  destruct (N.eqb_spec c 9) as [-> | H9]; [reflexivity |].
  destruct (N.eqb_spec c 10) as [-> | H10]; [reflexivity |].
  destruct (N.eqb_spec c 12) as [-> | H12]; [reflexivity |].
  destruct (N.eqb_spec c 13) as [-> | H13]; [reflexivity |].
  destruct (N.eqb_spec c QUOTE) as [-> | Hq]; [reflexivity |].
  destruct (N.eqb_spec c BACKSLASH) as [-> | Hb]; [reflexivity |].
  destruct ((c <? 32) || is_high_surrogate c || is_low_surrogate c) eqn:Hesc.
  - assert (Hc : c < 65536).
    { unfold is_high_surrogate, is_low_surrogate in Hesc.
      apply orb_true_iff in Hesc as [Hesc | Hesc];
        [apply orb_true_iff in Hesc as [Hesc | Hesc] |].
      - apply N.ltb_lt in Hesc. lia.
      - apply andb_true_iff in Hesc as [_ Hesc]. apply N.leb_le in Hesc. lia.
      - apply andb_true_iff in Hesc as [_ Hesc]. apply N.leb_le in Hesc. lia. }
    unfold unicode_escape. cbn [app].
    rewrite read_unicode_escape, hex4_digits by exact Hc. reflexivity.
  - apply orb_false_iff in Hesc as [Hesc _].
    apply orb_false_iff in Hesc as [Hesc _]. apply N.ltb_ge in Hesc.
    cbn [app]. apply read_raw; assumption.
Qed.

Lemma quote_body_cons2 c l r :
  quote_body (c :: l :: r)
  = if is_high_surrogate c && is_low_surrogate l
    then c :: l :: quote_body r
    else quote_unit c ++ quote_body (l :: r).
Proof. reflexivity. Qed.

Lemma surrogate_is_raw c :
  is_high_surrogate c || is_low_surrogate c = true ->
  32 <= c /\ c <> QUOTE /\ c <> BACKSLASH.
Proof.
  unfold is_high_surrogate, is_low_surrogate, QUOTE, BACKSLASH. intros H.
  apply orb_true_iff in H as [H | H];
    apply andb_true_iff in H as [H _]; apply N.leb_le in H; lia.
Qed.

(** Reading back the body of a quoted string, for every string. *)
Lemma read_quote_body_bounded (n : nat) :
  forall s tl, (length s <= n)%nat ->
  read_string_body (quote_body s ++ QUOTE :: tl) = Some (s, tl).
Proof.
  induction n as [| n IH]; intros s tl Hlen.
  - destruct s; [reflexivity | cbn in Hlen; lia].
  - destruct s as [| c [| l r]].
    + reflexivity.
    + change (quote_body [c]) with (quote_unit c).
      rewrite read_quote_unit. reflexivity.
    + rewrite quote_body_cons2.
      destruct (is_high_surrogate c && is_low_surrogate l) eqn:Hpair.
      * apply andb_true_iff in Hpair as [Hc Hl].
        destruct (surrogate_is_raw c) as (? & ? & ?); [by rewrite Hc |].
        destruct (surrogate_is_raw l) as (? & ? & ?); [by rewrite Hl, orb_true_r |].
        cbn [app]. rewrite read_raw by assumption. rewrite read_raw by assumption.
        rewrite IH by (cbn in Hlen; lia). reflexivity.
      * rewrite <- app_assoc, read_quote_unit.
        rewrite IH by (cbn in Hlen |- *; lia). reflexivity.
Qed.

Lemma read_quote_body s tl :
  read_string_body (quote_body s ++ QUOTE :: tl) = Some (s, tl).
Proof. apply (read_quote_body_bounded (length s)). reflexivity. Qed.

(** Every code unit [JSON.stringify] writes for a string is printable:
    control characters never appear in the text. *)
Lemma hex_digit_printable d : 32 <= hex_digit d.
Proof. unfold hex_digit. destruct (d <? 10); lia. Qed.

Lemma quote_unit_printable c : Forall (fun u => 32 <= u) (quote_unit c).
Proof.
  unfold quote_unit, unicode_escape, QUOTE, BACKSLASH.
  repeat match goal with
         | |- context [if ?b then _ else _] => destruct b eqn:?
         end;
    repeat constructor; try apply hex_digit_printable; try lia.
  match goal with
  | Hesc : _ || _ || _ = false |- _ =>
      apply orb_false_iff in Hesc as [Hesc _];
      apply orb_false_iff in Hesc as [Hesc _];
      apply N.ltb_ge in Hesc; exact Hesc
  end.
Qed.

Lemma quote_body_printable_bounded (n : nat) :
  forall s, (length s <= n)%nat -> Forall (fun u => 32 <= u) (quote_body s).
Proof.
  induction n as [| n IH]; intros s Hlen.
  - destruct s; [constructor | cbn in Hlen; lia].
  - destruct s as [| c [| l r]].
    + constructor.
    + apply quote_unit_printable.
    + rewrite quote_body_cons2.
      destruct (is_high_surrogate c && is_low_surrogate l) eqn:Hpair.
      * apply andb_true_iff in Hpair as [Hc Hl].
        destruct (surrogate_is_raw c) as (? & _); [by rewrite Hc |].
        destruct (surrogate_is_raw l) as (? & _); [by rewrite Hl, orb_true_r |].
        repeat constructor; try assumption. apply IH. cbn in Hlen. lia.
      * apply Forall_app. split; [apply quote_unit_printable |].
        apply IH. cbn in Hlen |- *. lia.
Qed.

Lemma stringify_string_printable s : Forall (fun u => 32 <= u) (stringify_string s).
Proof.
  unfold stringify_string, QUOTE. constructor; [lia |].
  apply Forall_app. split.
  - apply (quote_body_printable_bounded (length s)). reflexivity.
  - repeat constructor. lia.
Qed.

Lemma read_string_stringify s tl :
  read_string (stringify_string s ++ tl) = Some (s, tl).
Proof.
  unfold read_string, stringify_string. cbn [app skip_ws].
  change (is_ws QUOTE) with false. cbv iota.
  rewrite N.eqb_refl, <- app_assoc. apply read_quote_body.
Qed.

Lemma expect_head c tl : is_ws c = false -> expect c (c :: tl) = Some tl.
Proof.
  intros Hc. unfold expect. cbn [skip_ws]. rewrite Hc, N.eqb_refl. reflexivity.
Qed.

(** The text of one member, as [stringify_object] writes it. *)
Lemma read_member_text m tl : read_member (member_text m ++ tl) = Some (m, tl).
Proof.
  destruct m as [k v]. unfold read_member, member_text. cbn [fst snd].
  rewrite <- app_assoc, read_string_stringify. cbn [mbind option_bind app].
  rewrite expect_head by reflexivity. cbn [mbind option_bind].
  rewrite read_string_stringify. reflexivity.
Qed.

Lemma read_more_members_text (ms : list (jsstring * jsstring)) :
  forall (fuel : nat) tl, (length ms < fuel)%nat ->
  read_more_members fuel (after_commas (List.map member_text ms) ++ 125 :: tl)
  = Some (ms, tl).
Proof.
  unfold after_commas.
  induction ms as [| m ms IH]; intros fuel tl Hfuel.
  - destruct fuel as [| fuel]; [cbn in Hfuel; lia |]. reflexivity.
  - destruct fuel as [| fuel]; [cbn in Hfuel; lia |].
    cbn [List.map List.concat app read_more_members skip_ws].
    change (is_ws 44) with false. cbv iota.
    change (44 =? 125) with false. change (44 =? 44) with true. cbv iota.
    rewrite <- app_assoc, read_member_text. cbn [mbind option_bind].
    rewrite IH by (cbn in Hfuel; lia). reflexivity.
Qed.

Lemma after_commas_length (parts : list jsstring) :
  (length parts <= length (after_commas parts))%nat.
Proof.
  unfold after_commas. induction parts as [| q qs IH]; [cbn; lia |].
  cbn [List.map List.concat length]. rewrite length_app. cbn [length]. lia.
Qed.

Lemma stringify_object_length ms :
  (length ms < length (stringify_object ms))%nat.
Proof.
  unfold stringify_object. cbn [length]. rewrite length_app. cbn [length].
  destruct ms as [| m ms]; [cbn; lia |].
  cbn [List.map join_comma]. rewrite length_app.
  pose proof (after_commas_length (List.map member_text ms)) as H.
  rewrite length_map in H. cbn [length]. lia.
Qed.

(** [JSON.parse] after [JSON.stringify] gives back the members, for every
    object with string members. *)
Lemma parse_stringify_object ms : parse_object (stringify_object ms) = Some ms.
Proof.
  unfold parse_object.
  pose proof (stringify_object_length ms) as Hlen.
  set (fuel := length (stringify_object ms)) in *. clearbody fuel.
  unfold stringify_object.
  rewrite expect_head by reflexivity. cbn [mbind option_bind].
  destruct ms as [| m ms].
  - reflexivity.
  - cbn [List.map join_comma]. rewrite <- app_assoc.
    assert (Hskip : forall tl, skip_ws (member_text m ++ tl) = member_text m ++ tl)
      by reflexivity.
    rewrite Hskip.
    assert (Hhead : forall tl, exists tl', member_text m ++ tl = QUOTE :: tl')
      by (intros; eexists; reflexivity).
    destruct (Hhead (after_commas (List.map member_text ms) ++ [125])) as [tl' Etl].
    rewrite Etl at 1. change (QUOTE =? 125) with false. cbv iota.
    rewrite read_member_text. cbn [mbind option_bind].
    rewrite read_more_members_text by (cbn in Hlen; lia). reflexivity.
Qed.

Lemma join_comma_printable parts :
  Forall (Forall (fun u => 32 <= u)) parts -> Forall (fun u => 32 <= u) (join_comma parts).
Proof.
  intros H. destruct H as [| p ps Hp Hps]; [constructor |].
  cbn [join_comma]. apply Forall_app. split; [exact Hp |].
  unfold after_commas.
  induction Hps as [| q qs Hq Hqs IH]; [constructor |].
  cbn [List.map List.concat]. apply Forall_app. split; [| exact IH].
  constructor; [lia | exact Hq].
Qed.

(** The text of an object holds no control character, so no line break:
    it is a single line. *)
Lemma stringify_object_printable ms : Forall (fun u => 32 <= u) (stringify_object ms).
Proof.
  unfold stringify_object. constructor; [lia |].
  apply Forall_app. split; [| repeat constructor; lia].
  apply join_comma_printable.
  induction ms as [| [k v] ms IH]; [constructor |].
  cbn [List.map]. constructor; [| exact IH].
  unfold member_text. cbn [fst snd].
  apply Forall_app. split; [apply stringify_string_printable |].
  constructor; [lia | apply stringify_string_printable].
Qed.

End JSONFacts.

(** ** Clarify form controller *)

Module ClarifyFacts.
Import Clarify ActionBridge ProbeFacts ActionBridgeFacts JSONFacts Examples.

#[local] Arguments failed_calls : simpl never.

(** Every text the Action Bridge hands to the host is the text it was
    given. *)
Lemma sendMessage_delivers win text e t :
  In e (sendMessage win text) -> delivered_text e = Some t -> t = text.
Proof.
  intros Hin Ht.
  assert (Hcalls : forall fns, In e (failed_calls win fns (AText text)) -> t = text).
  { intros fns H. apply in_failed_calls in H as (f & _ & _ & ->).
    cbn in Ht. congruence. }
  destruct (sendMessage_cases win text) as
    [(pre & fn & post & _ & _ & _ & E) | [_ E]]; rewrite E in Hin.
  - apply in_app_or in Hin as [Hin | [<- | []]]; [by eapply Hcalls |].
    cbn in Ht. congruence.
  - apply in_app_or in Hin as [Hin | [<- | Hin]]; [by eapply Hcalls | |].
    + cbn in Ht. congruence.
    + unfold selectors in Hin. cbn [manipulate] in Hin.
      destruct (querySelector (document win) sel_textarea) as [el |].
      * unfold fill_input in Hin. destruct (value_setter _ _);
          cbn in Hin; destruct Hin as [<- | [<- | [<- | [<- | []]]]];
          cbn in Ht; congruence.
      * destruct (querySelector (document win) sel_input_text) as [el |]; [| destruct Hin].
        unfold fill_input in Hin. destruct (value_setter _ _);
          cbn in Hin; destruct Hin as [<- | [<- | [<- | [<- | []]]]];
          cbn in Ht; congruence.
Qed.

Lemma payload_of_fields st :
  members (payload_of st)
  = [ (lit "topic", topic st); (lit "content_format", contentFormat st);
      (lit "target_audience", audience st); (lit "tone", tone st) ].
Proof.
  unfold members, payload_of. cbn.
  destruct (topic st), (contentFormat st), (audience st), (tone st); reflexivity.
Qed.

(** C4: the message composed on submit ends with a comment that wraps
    the JSON text of the payload; that text is a single line, and parsing
    it gives back exactly the four fields of the form.  Every channel the
    submit uses delivers this message. *)
Theorem C4_clarify_round_trip (st : FormState) :
  let msg := displayContent (payload_of st) in
  let json := payloadJson (payload_of st) in
  (exists summary, msg = summary ++ comment_open ++ json ++ comment_close)
  /\ ~ In JSON.LF json /\ ~ In JSON.CR json
  /\ JSON.parse_object json
     = Some [ (lit "topic", topic st); (lit "content_format", contentFormat st);
              (lit "target_audience", audience st); (lit "tone", tone st) ]
  /\ forall ctx win e t,
       submitting st = false ->
       In e (handleSubmit ctx win st).2 -> delivered_text e = Some t -> t = msg.
Proof.
  cbn zeta. split; [| split; [| split; [| split]]].
  - unfold displayContent. eexists. rewrite !app_assoc. reflexivity.
  - intros Hin.
    pose proof (stringify_object_printable (members (payload_of st))) as Hp.
    rewrite Forall_forall in Hp. unfold payloadJson in Hin.
    apply list_elem_of_In, Hp in Hin. unfold JSON.LF in Hin. lia.
  - intros Hin.
    pose proof (stringify_object_printable (members (payload_of st))) as Hp.
    rewrite Forall_forall in Hp. unfold payloadJson in Hin.
    apply list_elem_of_In, Hp in Hin. unfold JSON.CR in Hin. lia.
  - unfold payloadJson. rewrite parse_stringify_object. f_equal.
    apply payload_of_fields.
  - intros ctx win e t Hsub Hin Ht. unfold handleSubmit in Hin. rewrite Hsub in Hin.
    destruct ctx as [| [[] |]]; cbn [snd] in Hin.
    + by eapply sendMessage_delivers.
    + destruct Hin as [<- | []]. cbn [delivered_text] in Ht.
      injection Ht as <-. reflexivity.
    + destruct Hin as [<- | Hin].
      * cbn [delivered_text] in Ht. injection Ht as <-. reflexivity.
      * by eapply sendMessage_delivers.
    + by eapply sendMessage_delivers.
Qed.

Lemma C4_clarify_round_trip_witness :
  payloadJson (payload_of form_ABCD) = json_ABCD
  /\ JSON.parse_object json_ABCD
     = Some [ (lit "topic", lit "A"); (lit "content_format", lit "B");
              (lit "target_audience", lit "C"); (lit "tone", lit "D") ]
  /\ ~ In JSON.LF json_ABCD.
Proof.
  destruct (C4_clarify_round_trip form_ABCD) as (_ & Hline & _ & Hparse & _).
  split; [reflexivity |]. split; [exact Hparse | exact Hline].
Defined.

(** The reader rejects what is not JSON text, and accepts white space
    between the tokens. *)
Example parse_object_rejects_open_string :
  JSON.parse_object [123; 34; 116; 34; 58; 34; 65; 125]%N = None.
Proof. reflexivity. Qed.

Example parse_object_skips_white_space :
  JSON.parse_object [32; 123; 32; 34; 116; 34; 32; 58; 10; 34; 92; 110; 92; 117; 48; 48; 52; 49; 34; 32; 125; 10]%N
  = Some [([116], [10; 65])]%N.
Proof. reflexivity. Qed.

(** The quoting of a line break, a quote, a lone surrogate and a pair. *)
Example stringify_string_escapes :
  JSON.stringify_string [10; 34; 56320; 55357; 56832]%N
  = [34; 92; 110; 92; 34; 92; 117; 100; 99; 48; 48; 55357; 56832; 34]%N.
Proof. reflexivity. Qed.

(** C6: right after a submit the guard is set; a payload update with
    another question text or another serialized missing-fields list
    clears it; a payload update that changes neither leaves it set. *)
Theorem C6_submitting_guard (ctx : StreamCtx) (win : Window) (st : FormState)
    (old new : Props) :
  let st1 := (handleSubmit ctx win st).1 in
  submitting st1 = true
  /\ (question old <> question new \/ missing_key old <> missing_key new ->
        submitting (update old new st1) = false)
  /\ (question old = question new -> missing_key old = missing_key new ->
        submitting (update old new st1) = true).
Proof.
  cbn zeta.
  assert (H1 : submitting (handleSubmit ctx win st).1 = true).
  { unfold handleSubmit. destruct (submitting st) eqn:Hs; [exact Hs |].
    destruct ctx as [| [[] |]]; reflexivity. }
  split; [exact H1 |]. unfold update, round_changed. cbn [submitting]. split.
  - intros [Hq | Hm].
    + rewrite (bool_decide_eq_false_2 _ Hq). reflexivity.
    + rewrite (bool_decide_eq_false_2 _ Hm), andb_false_r. reflexivity.
  - intros Hq Hm.
    rewrite (bool_decide_eq_true_2 _ Hq), (bool_decide_eq_true_2 _ Hm). exact H1.
Qed.

Lemma C6_submitting_guard_witness :
  submitting (handleSubmit working_stream bare_window form_ABCD).1 = true
  /\ submitting (update props_Q1 props_Q2
                   (handleSubmit working_stream bare_window form_ABCD).1) = false
  /\ submitting (update props_Q1 props_Q1
                   (handleSubmit working_stream bare_window form_ABCD).1) = true.
Proof.
  destruct (C6_submitting_guard working_stream bare_window form_ABCD props_Q1 props_Q2)
    as (Hset & Hreset & _).
  destruct (C6_submitting_guard working_stream bare_window form_ABCD props_Q1 props_Q1)
    as (_ & _ & Hkeep).
  split; [exact Hset |]. split.
  - apply Hreset. left. discriminate.
  - apply Hkeep; reflexivity.
Defined.

(** C10: with the guard already set, a submit does nothing: the form
    state is the same and no effect is performed, so no message is
    composed and no channel is invoked. *)
Theorem C10_submit_while_submitting_is_noop (ctx : StreamCtx) (win : Window) (st : FormState) :
  submitting st = true -> handleSubmit ctx win st = (st, []).
Proof. intros H. unfold handleSubmit. rewrite H. reflexivity. Qed.

Lemma C10_submit_while_submitting_is_noop_witness :
  submitting form_submitted = true
  /\ handleSubmit working_stream studio_window form_submitted = (form_submitted, []).
Proof.
  split; [reflexivity |].
  apply (C10_submit_while_submitting_is_noop working_stream studio_window form_submitted).
  reflexivity.
Defined.

(** Without the guard the same click does submit. *)
Example submit_when_idle :
  handleSubmit working_stream studio_window form_ABCD
  = (form_submitted,
     [StreamSubmit (newMessage (displayContent (payload_of form_ABCD))) Returns]).
Proof. reflexivity. Qed.

End ClarifyFacts.

(** ** SEO task rows *)

Module SEOFacts.
Import SEO Examples.

(** C3, as stated, fails: a task with impact 7 does not render five
    filled glyphs; the count of the empty glyphs is negative and the
    rendering of the scale throws.  The filled part alone already has
    seven glyphs. *)
Lemma C3_impact_7_counterexample :
  impact_scale task_impact_7 = RangeError
  /\ JS.repeat STAR 7 = Normal (List.repeat 9733%N 7)
  /\ impact_scale task_impact_7 <> Normal (glyphs 5).
Proof. split; [reflexivity | split; [reflexivity | discriminate]]. Qed.

Lemma repeat_glyph (g : N) (n : Z) :
  0 <= n -> JS.repeat [g] n = Normal (List.repeat g (Z.to_nat n)).
Proof.
  intros Hn. unfold JS.repeat.
  rewrite (proj2 (Z.ltb_ge n 0) Hn). f_equal.
  induction (Z.to_nat n) as [| k IH]; [reflexivity |]. cbn. f_equal. exact IH.
Qed.

Lemma scale_in_range v :
  in_range v -> scale v = Normal (glyphs (default 0 v)).
Proof.
  intros Hv. unfold scale, glyphs, STAR, STAR_EMPTY.
  assert (E : num_or v 0 = default 0 v) by (destruct v as [[] |]; reflexivity).
  assert (H : 0 <= default 0 v <= 5) by (destruct v; cbn in *; lia).
  rewrite E, repeat_glyph by lia. cbn [JS.bind].
  rewrite repeat_glyph by lia. reflexivity.
Qed.

Lemma glyphs_shape n :
  0 <= n <= 5 ->
  length (glyphs n) = 5%nat
  /\ count_glyph 9733 (glyphs n) = Z.to_nat n
  /\ count_glyph 9734 (glyphs n) = Z.to_nat (5 - n).
Proof.
  intros Hn. assert (H : n = 0 \/ n = 1 \/ n = 2 \/ n = 3 \/ n = 4 \/ n = 5) by lia.
  destruct H as [-> | [-> | [-> | [-> | [-> | ->]]]]]; repeat split; reflexivity.
Qed.

(** C3 (amended): for a task whose impact and difficulty are absent or
    integers from 0 to 5, each renders as a scale of exactly five glyphs,
    the value counted in filled glyphs and the rest empty (an absent value
    counts 0); the payload of the fix action is built from the fix prompt
    (or the title), the issue type and the category, and is the same
    whatever the impact and the difficulty are. *)
Theorem C3_scale_in_declared_range (t : SEOTask) :
  in_range (impact t) -> in_range (difficulty t) ->
  let i := default 0 (impact t) in
  let d := default 0 (difficulty t) in
  impact_scale t = Normal (glyphs i)
  /\ difficulty_scale t = Normal (glyphs d)
  /\ length (glyphs i) = 5%nat /\ count_glyph 9733 (glyphs i) = Z.to_nat i
  /\ length (glyphs d) = 5%nat /\ count_glyph 9733 (glyphs d) = Z.to_nat d
  /\ (forall i' d', fix_detail (with_scores i' d' t) = fix_detail t)
  /\ (forall c p, fix_prompt t = Some (c :: p) -> message (fix_detail t) = c :: p).
Proof.
  intros Hi Hd. cbn zeta.
  assert (Ri : 0 <= default 0 (impact t) <= 5) by (destruct (impact t); cbn in *; lia).
  assert (Rd : 0 <= default 0 (difficulty t) <= 5) by (destruct (difficulty t); cbn in *; lia).
  destruct (glyphs_shape _ Ri) as (Li & Ci & _).
  destruct (glyphs_shape _ Rd) as (Ld & Cd & _).
  repeat split; try assumption.
  - by apply scale_in_range.
  - by apply scale_in_range.
  - intros c p Hp. unfold fix_detail, chatMessage. cbn. rewrite Hp. reflexivity.
Qed.

Lemma C3_scale_in_declared_range_witness :
  impact_scale (with_scores (Some 3) None task_impact_7)
    = Normal [9733; 9733; 9733; 9734; 9734]%N
  /\ difficulty_scale (with_scores (Some 3) None task_impact_7)
    = Normal [9734; 9734; 9734; 9734; 9734]%N.
Proof.
  assert (Hi : in_range (impact (with_scores (Some 3) None task_impact_7))) by (cbn; lia).
  assert (Hd : in_range (difficulty (with_scores (Some 3) None task_impact_7))) by exact I.
  destruct (C3_scale_in_declared_range (with_scores (Some 3) None task_impact_7) Hi Hd)
    as (H1 & H2 & _).
  split; [exact H1 | exact H2].
Defined.

End SEOFacts.

(** ** More on the Action Bridge *)

Module ActionBridgeMore.
Import ActionBridge ProbeFacts ActionBridgeFacts Examples MoreExamples.

#[local] Arguments failed_calls : simpl never.
#[local] Arguments throwers : simpl never.

(** X1: The delayed submit uses exactly one way to submit, by priority: the
    submit button of the form of the input, else another button of that
    form that is not a plain button, else a submit button of the page;
    without any button, the form is submitted ([requestSubmit] when the
    form has it, [submit] otherwise); without a form either, the Enter key
    is synthesised as key-down, key-press, key-up. *)
Theorem delayed_submit_one_way (doc : Document) (input : Element) :
  let form := closest_form doc input in
  let in_form sel := form ≫= (fun f => form_querySelector doc f sel) in
  (forall b, in_form sel_submit = Some b -> delayed_submit doc input = [Click b])
  /\ (forall b, in_form sel_submit = None -> in_form sel_non_plain = Some b ->
        delayed_submit doc input = [Click b])
  /\ (forall b, in_form sel_submit = None -> in_form sel_non_plain = None ->
        page_submit_button doc = Some b -> delayed_submit doc input = [Click b])
  /\ (forall f, in_form sel_submit = None -> in_form sel_non_plain = None ->
        page_submit_button doc = None -> form = Some f ->
        delayed_submit doc input
        = [if has_requestSubmit f then RequestSubmit f else FormSubmit f])
  /\ (delayed_submit doc input
      = [DispatchKey input keydown; DispatchKey input keypress; DispatchKey input keyup]
      <-> form = None /\ page_submit_button doc = None).
Proof.
  cbn zeta. unfold delayed_submit.
  destruct (closest_form doc input) as [f |]; cbn [mbind option_bind].
  - destruct (form_querySelector doc f sel_submit) as [b1 |],
             (form_querySelector doc f sel_non_plain) as [b2 |],
             (page_submit_button doc) as [b3 |];
      repeat split; intros; simplify_eq; try reflexivity; try discriminate;
      try (destruct (has_requestSubmit _); (reflexivity || discriminate));
      try (destruct_and?; discriminate).
  - destruct (page_submit_button doc) as [b3 |];
      repeat split; intros; simplify_eq; try reflexivity; try discriminate;
      try (destruct_and?; discriminate).
Qed.

Lemma delayed_submit_one_way_witness :
  delayed_submit form_document the_textarea = [Click form_button]
  /\ delayed_submit buttonless_document the_textarea = [FormSubmit old_form].
Proof.
  destruct (delayed_submit_one_way form_document the_textarea) as (Hbtn & _).
  destruct (delayed_submit_one_way buttonless_document the_textarea) as (_ & _ & _ & Hform & _).
  split.
  - apply Hbtn. reflexivity.
  - apply (Hform old_form); reflexivity.
Defined.

Lemma filter_sublist {A} (f : A -> bool) (l : list A) : sublist (List.filter f l) l.
Proof.
  induction l as [| x l IH]; cbn; [constructor |].
  destruct (f x); [by apply sublist_skip | by apply sublist_cons].
Qed.

Lemma call_names_failed_calls win fns a :
  call_names (failed_calls win fns a) = throwers win fns.
Proof.
  unfold call_names, failed_calls.
  induction (throwers win fns) as [| f l IH]; [reflexivity |].
  cbn. f_equal. exact IH.
Qed.

Lemma call_names_app tr1 tr2 : call_names (tr1 ++ tr2) = call_names tr1 ++ call_names tr2.
Proof. unfold call_names. apply omap_app. Qed.

Lemma call_names_manipulate doc sels text : call_names (manipulate doc sels text) = [].
Proof.
  induction sels as [| sel rest IH]; [reflexivity |].
  cbn. destruct (querySelector doc sel); [| exact IH].
  unfold fill_input. destruct (value_setter _ _); reflexivity.
Qed.

Lemma call_names_cons_event n d tr :
  call_names (DispatchWindowEvent n d :: tr) = call_names tr.
Proof. reflexivity. Qed.

Lemma in_call_names fn a o tr : In (CallGlobal fn a o) tr -> In fn (call_names tr).
Proof.
  induction tr as [| e tr IH]; [intros [] |].
  intros [-> | Hin]; [by left |].
  unfold call_names. cbn [omap list_omap]. fold (call_names tr).
  destruct e; try (right; by apply IH); by apply IH.
Qed.

Lemma globalFns_NoDup : NoDup globalFns.
Proof. apply (bool_decide_unpack (NoDup globalFns)). vm_compute. exact I. Qed.

(** X2: [sendMessage] calls host functions in the order of the probed names and
    each at most once; what it calls is a function of the host, called with
    the text; and nothing listed after a function that returned is called. *)
Theorem sendMessage_call_order (win : Window) (text : jsstring) :
  let tr := sendMessage win text in
  sublist (call_names tr) globalFns
  /\ NoDup (call_names tr)
  /\ (forall fn a o, In (CallGlobal fn a o) tr ->
        function_at win fn = Some o /\ a = AText text)
  /\ (forall pre fn post a,
        tr = pre ++ CallGlobal fn a Returns :: post -> post = []).
Proof.
  cbn zeta.
  assert (Hsub : sublist (call_names (sendMessage win text)) globalFns).
  { destruct (sendMessage_cases win text) as
      [(pre & fn & post & Hfns & Hfn & Hpre & ->) | [Hnone ->]].
    - rewrite call_names_app, call_names_failed_calls, Hfns. cbn.
      apply sublist_app; [apply filter_sublist |].
      apply sublist_skip, sublist_nil_l.
    - rewrite call_names_app, call_names_failed_calls, call_names_cons_event.
      rewrite call_names_manipulate, app_nil_r. apply filter_sublist. }
  split; [exact Hsub |]. split; [exact (sublist_NoDup _ _ globalFns_NoDup Hsub) |].
  destruct (sendMessage_cases win text) as
    [(pre & fn & post & Hfns & Hfn & Hpre & ->) | [Hnone ->]].
  - split.
    + intros g a o Hin. apply in_app_or in Hin as [Hin | [Hin | []]].
      * apply in_failed_calls in Hin as (f & _ & Hf & E). by simplify_eq.
      * by simplify_eq.
    + intros pre' g post' a E.
      destruct post' as [| e post'] using rev_ind; [reflexivity |].
      exfalso. rewrite app_comm_cons, app_assoc in E.
      apply app_inj_tail in E as [E _].
      assert (Hin : In (CallGlobal g a Returns) (failed_calls win pre (AText text))).
      { rewrite E. apply in_elt. }
      apply in_failed_calls in Hin as (f & _ & _ & Hf). discriminate Hf.
  - split.
    + intros g a o Hin. apply in_app_or in Hin as [Hin | [Hin | Hin]].
      * apply in_failed_calls in Hin as (f & _ & Hf & E). by simplify_eq.
      * discriminate Hin.
      * exfalso.
        apply in_call_names in Hin.
        rewrite call_names_manipulate in Hin. destruct Hin.
    + intros pre' g post' a E. exfalso.
      assert (Hin : In (CallGlobal g a Returns)
                (failed_calls win globalFns (AText text)
                 ++ DispatchWindowEvent "langgraph:send" (DText text)
                 :: manipulate (document win) selectors text)).
      { rewrite E. apply in_elt. }
      apply in_app_or in Hin as [Hin | [Hin | Hin]].
      * apply in_failed_calls in Hin as (f & _ & _ & Hf). discriminate Hf.
      * discriminate Hin.
      * apply in_call_names in Hin.
        rewrite call_names_manipulate in Hin. destruct Hin.
Qed.

Lemma sendMessage_call_order_witness :
  call_names (sendMessage studio_window hello)
  = [ "__LANGGRAPH_SEND_MESSAGE__"; "sendMessage" ]%string
  /\ sublist (call_names (sendMessage studio_window hello)) globalFns.
Proof.
  destruct (sendMessage_call_order studio_window hello) as (Hsub & _).
  split; [reflexivity | exact Hsub].
Defined.

Lemma count_of_app s tr1 tr2 : count_of s (tr1 ++ tr2) = (count_of s tr1 + count_of s tr2)%nat.
Proof. unfold count_of. rewrite List.filter_app, length_app. reflexivity. Qed.

Lemma count_of_failed_calls s win fns a :
  s <> GlobalProbe -> count_of s (failed_calls win fns a) = 0%nat.
Proof.
  intros Hs. unfold count_of, failed_calls.
  induction (throwers win fns) as [| f l IH]; [reflexivity |].
  cbn. rewrite bool_decide_eq_false_2 by congruence. exact IH.
Qed.

Lemma dom_part_app tr1 tr2 : dom_part (tr1 ++ tr2) = dom_part tr1 ++ dom_part tr2.
Proof. unfold dom_part. apply List.filter_app. Qed.

Lemma dom_part_failed_calls win fns a : dom_part (failed_calls win fns a) = [].
Proof.
  unfold dom_part, failed_calls.
  induction (throwers win fns) as [| f l IH]; [reflexivity |]. exact IH.
Qed.

Lemma manipulate_shape doc text :
  manipulate doc selectors text = []
  \/ exists el, manipulate doc selectors text = fill_input doc el text.
Proof.
  unfold selectors. cbn [manipulate].
  destruct (querySelector doc sel_textarea) as [ta |]; [right; by eexists |].
  destruct (querySelector doc sel_input_text) as [i |]; [right; by eexists | by left].
Qed.

Lemma fill_input_dom doc el text :
  dom_part (fill_input doc el text) = fill_input doc el text
  /\ count_of EventBroadcast (fill_input doc el text) = 0%nat.
Proof. unfold fill_input. destruct (value_setter _ _); split; reflexivity. Qed.

Lemma manipulate_dom doc text :
  dom_part (manipulate doc selectors text) = manipulate doc selectors text
  /\ count_of EventBroadcast (manipulate doc selectors text) = 0%nat.
Proof.
  destruct (manipulate_shape doc text) as [-> | [el ->]]; [by split |].
  apply fill_input_dom.
Qed.

(** X3: When no probed function returns normally (each is absent or throws),
    [sendMessage] has tried every throwing one, broadcasts its event
    exactly once, and then touches at most one element of the page: the
    textarea when there is one, else the text input, else nothing.  The
    element gets its value set, an input event, a change event and the
    delayed submit, in this order. *)
Theorem sendMessage_without_working_function (win : Window) (text : jsstring) :
  none_returns win globalFns ->
  let tr := sendMessage win text in
  let doc := document win in
  call_names tr = throwers win globalFns
  /\ count_of EventBroadcast tr = 1%nat
  /\ dom_part tr
     = match querySelector doc sel_textarea, querySelector doc sel_input_text with
       | Some ta, _ => fill_input doc ta text
       | None, Some i => fill_input doc i text
       | None, None => []
       end
  /\ forall el, exists setter,
       (setter = SetValueNative el text \/ setter = SetValueProp el text)
       /\ fill_input doc el text
          = [setter; DispatchInputEvent el "input"; DispatchInputEvent el "change";
             SetTimeout 50 el].
Proof.
  intros Hnone. cbn zeta.
  destruct (sendMessage_cases win text) as
    [(pre & fn & post & Hfns & Hfn & _) | [_ ->]].
  { exfalso. apply (Hnone fn); [| exact Hfn]. rewrite Hfns. apply in_elt. }
  destruct (manipulate_dom (document win) text) as [Hdom Hcount].
  split; [| split; [| split]].
  - rewrite call_names_app, call_names_failed_calls, call_names_cons_event.
    rewrite call_names_manipulate. apply app_nil_r.
  - rewrite count_of_app, count_of_failed_calls by discriminate.
    change (DispatchWindowEvent "langgraph:send" (DText text)
            :: manipulate (document win) selectors text)
      with ([DispatchWindowEvent "langgraph:send" (DText text)]
            ++ manipulate (document win) selectors text).
    rewrite count_of_app, Hcount. reflexivity.
  - rewrite dom_part_app, dom_part_failed_calls.
    change (DispatchWindowEvent "langgraph:send" (DText text)
            :: manipulate (document win) selectors text)
      with ([DispatchWindowEvent "langgraph:send" (DText text)]
            ++ manipulate (document win) selectors text).
    rewrite dom_part_app, Hdom. cbn [app]. unfold selectors. cbn [manipulate].
    change (dom_part [DispatchWindowEvent "langgraph:send" (DText text)]) with (@nil Effect).
    cbn [app].
    destruct (querySelector (document win) sel_textarea); [reflexivity |].
    destruct (querySelector (document win) sel_input_text); reflexivity.
  - intros el. unfold fill_input.
    destruct (value_setter _ _); eexists; (split; [| reflexivity]); [by left | by right].
Qed.

Lemma sendMessage_without_working_function_witness :
  none_returns throwing_window globalFns
  /\ call_names (sendMessage throwing_window hello) = globalFns
  /\ count_of EventBroadcast (sendMessage throwing_window hello) = 1%nat.
Proof.
  assert (H : none_returns throwing_window globalFns).
  { intros fn Hin. cbn in Hin.
    destruct Hin as [<- | [<- | [<- | [<- | []]]]]; vm_compute; discriminate. }
  destruct (sendMessage_without_working_function throwing_window hello H) as (Hc & Hn & _).
  split; [exact H |]. split; [rewrite Hc; reflexivity | exact Hn].
Defined.

End ActionBridgeMore.

(** ** More on the Resume Bridge *)

Module ResumeBridgeMore.
Import ActionBridge ResumeBridge ProbeFacts ActionBridgeFacts ResumeBridgeFacts.
Import ActionBridgeMore Examples MoreExamples.

#[local] Arguments failed_calls : simpl never.

(** X4: When no resume function returns normally but a probed send function
    does, [resumeInterrupt] broadcasts the resume event with the decision
    value and ends with a call of that send function with the confirm or
    cancel text; no send event is broadcast and the page is not touched. *)
Theorem resume_falls_back_to_send_function (win : Window) (value : ResumeValue) :
  none_returns win resume_chain ->
  (exists fn, In fn globalFns /\ function_at win fn = Some Returns) ->
  let tr := resumeInterrupt win value in
  let text := if confirmed value then text_confirm else text_cancel in
  ran DomManipulation tr = false
  /\ count_of EventBroadcast tr = 1%nat
  /\ In (DispatchWindowEvent "langgraph:resume" (DResume value)) tr
  /\ exists fn, In fn globalFns /\ last tr = Some (CallGlobal fn (AText text) Returns).
Proof.
  intros Hnone (g & Hg & Hret). cbn zeta.
  rewrite resumeInterrupt_as_probe.
  pose proof (probe_spec win resume_chain (AResume value)) as H.
  destruct (probe win resume_chain (AResume value)) as [calls [|]].
  { exfalso. destruct H as (pre & fn & post & Hchain & Hfn & _).
    apply (Hnone fn); [| exact Hfn]. rewrite Hchain. apply in_elt. }
  destruct H as [_ ->].
  set (text := if confirmed value then text_confirm else text_cancel).
  destruct (sendMessage_cases win text) as
    [(pre & fn & post & Hfns & Hfn & Hpre & ->) | [Hno _]].
  2: { exfalso. exact (Hno g Hg Hret). }
  repeat split.
  - rewrite ran_app, ran_failed_calls by discriminate.
    change (DispatchWindowEvent "langgraph:resume" (DResume value)
            :: failed_calls win pre (AText text) ++ [CallGlobal fn (AText text) Returns])
      with ([DispatchWindowEvent "langgraph:resume" (DResume value)]
            ++ failed_calls win pre (AText text) ++ [CallGlobal fn (AText text) Returns]).
    rewrite !ran_app, ran_failed_calls by discriminate. reflexivity.
  - rewrite count_of_app, count_of_failed_calls by discriminate.
    change (DispatchWindowEvent "langgraph:resume" (DResume value)
            :: failed_calls win pre (AText text) ++ [CallGlobal fn (AText text) Returns])
      with ([DispatchWindowEvent "langgraph:resume" (DResume value)]
            ++ failed_calls win pre (AText text) ++ [CallGlobal fn (AText text) Returns]).
    rewrite !count_of_app, count_of_failed_calls by discriminate. reflexivity.
  - apply in_elt.
  - exists fn. split; [rewrite Hfns; apply in_elt |].
    rewrite app_comm_cons, app_assoc. apply last_snoc.
Qed.

Lemma resume_falls_back_to_send_function_witness :
  handleConfirm send_only_window
  = [ DispatchWindowEvent "langgraph:resume" (DResume {| confirmed := true |});
      CallGlobal "sendMessage" (AText text_confirm) Returns ]
  /\ ran DomManipulation (handleConfirm send_only_window) = false.
Proof.
  assert (H1 : none_returns send_only_window resume_chain).
  { intros fn Hin. cbn in Hin.
    destruct Hin as [<- | [<- | [<- | [<- | []]]]]; vm_compute; discriminate. }
  assert (H2 : exists fn, In fn globalFns /\ function_at send_only_window fn = Some Returns).
  { exists "sendMessage"%string. split; [cbn; tauto | reflexivity]. }
  destruct (resume_falls_back_to_send_function send_only_window {| confirmed := true |} H1 H2)
    as (Hdom & _).
  split; [reflexivity | exact Hdom].
Defined.

End ResumeBridgeMore.

(** ** More on JSON text *)

Module JSONMore.
Import JSON JSONArray JSONFacts.
Local Open Scope N_scope.

Lemma read_more_items_text (xs : list jsstring) :
  forall (fuel : nat) tl, (length xs < fuel)%nat ->
  read_more_items fuel (after_commas (List.map stringify_string xs) ++ 93 :: tl)
  = Some (xs, tl).
Proof.
  unfold after_commas.
  induction xs as [| x xs IH]; intros fuel tl Hfuel.
  - destruct fuel as [| fuel]; [cbn in Hfuel; lia |]. reflexivity.
  - destruct fuel as [| fuel]; [cbn in Hfuel; lia |].
    cbn [List.map List.concat app read_more_items skip_ws].
    change (is_ws 44) with false. cbv iota.
    change (44 =? 93) with false. change (44 =? 44) with true. cbv iota.
    rewrite <- app_assoc, read_string_stringify. cbn [mbind option_bind].
    rewrite IH by (cbn in Hfuel; lia). reflexivity.
Qed.

Lemma stringify_array_length xs : (length xs < length (stringify_array xs))%nat.
Proof.
  unfold stringify_array. cbn [length]. rewrite length_app. cbn [length].
  destruct xs as [| x xs]; [cbn; lia |].
  cbn [List.map join_comma]. rewrite length_app.
  pose proof (after_commas_length (List.map stringify_string xs)) as H.
  rewrite length_map in H. cbn [length]. lia.
Qed.

(** Reading the text of an array of strings gives the strings back. *)
Lemma parse_stringify_array xs : parse_array (stringify_array xs) = Some xs.
Proof.
  unfold parse_array.
  pose proof (stringify_array_length xs) as Hlen.
  set (fuel := length (stringify_array xs)) in *. clearbody fuel.
  unfold stringify_array.
  rewrite expect_head by reflexivity. cbn [mbind option_bind].
  destruct xs as [| x xs].
  - reflexivity.
  - cbn [List.map join_comma]. rewrite <- app_assoc.
    assert (Hskip : forall tl, skip_ws (stringify_string x ++ tl) = stringify_string x ++ tl)
      by reflexivity.
    rewrite Hskip.
    assert (Hhead : forall tl, exists tl', stringify_string x ++ tl = QUOTE :: tl')
      by (intros; eexists; reflexivity).
    destruct (Hhead (after_commas (List.map stringify_string xs) ++ [93])) as [tl' Etl].
    rewrite Etl at 1. change (QUOTE =? 93) with false. cbv iota.
    rewrite read_string_stringify. cbn [mbind option_bind].
    rewrite read_more_items_text by (cbn in Hlen; lia). reflexivity.
Qed.

Lemma stringify_array_inj xs ys : stringify_array xs = stringify_array ys -> xs = ys.
Proof.
  intros E. pose proof (parse_stringify_array xs) as H.
  rewrite E, parse_stringify_array in H. congruence.
Qed.

Lemma stringify_object_inj ms ns : stringify_object ms = stringify_object ns -> ms = ns.
Proof.
  intros E. pose proof (parse_stringify_object ms) as H.
  rewrite E, parse_stringify_object in H. congruence.
Qed.

Lemma plain_unit_quote c : plain_unit c = true -> quote_unit c = [c].
Proof.
  unfold plain_unit. intros H.
  repeat (apply andb_true_iff in H as [H ?]).
  apply N.leb_le in H.
  repeat match goal with
         | Hn : negb _ = true |- _ => apply negb_true_iff in Hn
         end.
  unfold quote_unit.
  rewrite (proj2 (N.eqb_neq c 8)), (proj2 (N.eqb_neq c 9)), (proj2 (N.eqb_neq c 10)),
    (proj2 (N.eqb_neq c 12)), (proj2 (N.eqb_neq c 13)) by lia.
  repeat match goal with
         | Hn : _ = false |- _ => rewrite Hn; clear Hn
         end.
  rewrite (proj2 (N.ltb_ge c 32)) by lia. reflexivity.
Qed.

Lemma plain_quote_body s : forallb plain_unit s = true -> quote_body s = s.
Proof.
  induction s as [| c s IH]; [reflexivity |].
  cbn [forallb]. intros H. apply andb_true_iff in H as [Hc Hs].
  specialize (IH Hs).
  destruct s as [| l r].
  - change (quote_body [c]) with (quote_unit c). by apply plain_unit_quote.
  - rewrite quote_body_cons2, IH.
    assert (Hh : is_high_surrogate c = false).
    { unfold plain_unit in Hc. repeat (apply andb_true_iff in Hc as [Hc ?]).
      by apply negb_true_iff. }
    rewrite Hh. cbn [andb]. rewrite plain_unit_quote by exact Hc. reflexivity.
Qed.

End JSONMore.

(** ** More on the Clarify form controller *)

Module ClarifyMore.
Import Clarify ActionBridge ProbeFacts ActionBridgeFacts JSONFacts JSONMore ClarifyFacts.
Import Examples MoreExamples.

#[local] Arguments failed_calls : simpl never.

Lemma round_changed_false old new :
  round_changed old new = false
  <-> question old = question new
      /\ default [] (missing old) = default [] (missing new).
Proof.
  unfold round_changed, missing_key. rewrite negb_false_iff, andb_true_iff.
  rewrite !bool_decide_eq_true. split.
  - intros [Hq Hm]. split; [exact Hq | by apply stringify_array_inj].
  - intros [Hq Hm]. split; [exact Hq | by rewrite Hm].
Qed.

(** X6: After a payload update the guard is still set exactly when it was set
    before and neither the question nor the list of missing fields has
    changed; an absent list and an empty list count as the same list. *)
Theorem guard_survives_iff_same_round (old new : Props) (st : FormState) :
  submitting (update old new st) = true
  <-> submitting st = true
      /\ question old = question new
      /\ default [] (missing old) = default [] (missing new).
Proof.
  unfold update. cbn [submitting].
  destruct (round_changed old new) eqn:Hr.
  - split; [discriminate |]. intros (_ & Hq & Hm).
    assert (round_changed old new = false) by (apply round_changed_false; by split).
    congruence.
  - apply round_changed_false in Hr. tauto.
Qed.

Lemma guard_survives_iff_same_round_witness :
  submitting (update props_Q1 props_Q1 form_submitted) = true
  /\ submitting (update props_Q1 props_Q2 form_submitted) = false.
Proof.
  split.
  - apply (guard_survives_iff_same_round props_Q1 props_Q1 form_submitted).
    repeat split; reflexivity.
  - destruct (submitting (update props_Q1 props_Q2 form_submitted)) eqn:E; [| reflexivity].
    apply (guard_survives_iff_same_round props_Q1 props_Q2 form_submitted) in E.
    destruct E as (_ & Hq & _). discriminate Hq.
Defined.

(** X7: A re-render with the same props changes nothing, and applying the same
    update twice is the same as applying it once.  After an update every
    field holds either what it held (its prop did not change: the user's
    edit is kept) or what a freshly mounted card with the new props shows
    (its prop changed: the edit is overwritten, by the empty string when
    the prop is withdrawn). *)
Theorem update_reseeds_only_changed_fields (old new : Props) (st : FormState) :
  update old old st = st
  /\ update old new (update old new st) = update old new st
  /\ (topic (update old new st)
      = if bool_decide (p_topic old = p_topic new) then topic st else topic (mount new))
  /\ (contentFormat (update old new st)
      = if bool_decide (p_content_format old = p_content_format new)
        then contentFormat st else contentFormat (mount new))
  /\ (audience (update old new st)
      = if bool_decide (p_target_audience old = p_target_audience new)
        then audience st else audience (mount new))
  /\ (tone (update old new st)
      = if bool_decide (p_tone old = p_tone new) then tone st else tone (mount new)).
Proof.
  split; [| split].
  - unfold update, round_changed.
    rewrite !bool_decide_eq_true_2 by reflexivity. cbn [andb negb].
    destruct st; reflexivity.
  - unfold update. cbn [topic contentFormat audience tone submitting].
    f_equal; repeat case_bool_decide; try reflexivity.
    destruct (round_changed old new); reflexivity.
  - repeat split; unfold update, mount; cbn; reflexivity.
Qed.

Lemma sendMessage_nonempty win text : sendMessage win text <> [].
Proof.
  destruct (sendMessage_cases win text) as
    [(pre & fn & post & _ & _ & _ & ->) | [_ ->]];
    intros E; apply app_eq_nil in E as [_ E]; discriminate E.
Qed.

(** X8: A second click on submit: after the round has changed (another
    question or another list of missing fields) it delivers again, through
    at least one call or event; without such a change it does nothing, even
    if the backend has pushed new field values in between. *)
Theorem second_submit (ctx : StreamCtx) (win : Window) (st : FormState) (old new : Props) :
  let st1 := (handleSubmit ctx win st).1 in
  let st2 := update old new st1 in
  (round_changed old new = true ->
     (handleSubmit ctx win st2).2 <> []
     /\ forall e t, In e (handleSubmit ctx win st2).2 -> delivered_text e = Some t ->
                    t = displayContent (payload_of st2))
  /\ (round_changed old new = false -> handleSubmit ctx win st2 = (st2, [])).
Proof.
  cbn zeta.
  assert (H1 : submitting (handleSubmit ctx win st).1 = true).
  { unfold handleSubmit. destruct (submitting st) eqn:Hs; [exact Hs |].
    destruct ctx as [| [[] |]]; reflexivity. }
  set (st1 := (handleSubmit ctx win st).1) in *.
  split; intros Hr.
  - assert (Hs : submitting (update old new st1) = false).
    { unfold update. cbn [submitting]. rewrite Hr. reflexivity. }
    split.
    + unfold handleSubmit. rewrite Hs.
      destruct ctx as [| [[] |]]; cbn [snd];
        try apply sendMessage_nonempty; discriminate.
    + intros e t Hin Ht. unfold handleSubmit in Hin. rewrite Hs in Hin.
      destruct ctx as [| [[] |]]; cbn [snd] in Hin.
      * by eapply sendMessage_delivers.
      * destruct Hin as [<- | []]. cbn [delivered_text] in Ht.
        injection Ht as <-. reflexivity.
      * destruct Hin as [<- | Hin].
        -- cbn [delivered_text] in Ht. injection Ht as <-. reflexivity.
        -- by eapply sendMessage_delivers.
      * by eapply sendMessage_delivers.
  - assert (Hs : submitting (update old new st1) = true).
    { unfold update. cbn [submitting]. rewrite Hr. exact H1. }
    unfold handleSubmit. rewrite Hs. reflexivity.
Qed.

Lemma second_submit_witness :
  (handleSubmit working_stream bare_window
     (update props_Q1 props_Q2 (handleSubmit working_stream bare_window form_ABCD).1)).2 <> []
  /\ (handleSubmit working_stream bare_window
       (update props_Q1 props_Q1 (handleSubmit working_stream bare_window form_ABCD).1)).2 = [].
Proof.
  destruct (second_submit working_stream bare_window form_ABCD props_Q1 props_Q2) as [Hagain _].
  destruct (second_submit working_stream bare_window form_ABCD props_Q1 props_Q1) as [_ Hnoop].
  split.
  - apply Hagain. reflexivity.
  - rewrite Hnoop; reflexivity.
Defined.

(** X10: Two forms compose the same hidden JSON text only when their four
    fields are the same: the text determines the payload. *)
Theorem payloadJson_determines_fields (p q : Payload) :
  payloadJson p = payloadJson q -> p = q.
Proof.
  intros E. apply stringify_object_inj in E.
  unfold members in E. destruct p, q. cbn in E. by simplify_eq.
Qed.

Lemma payloadJson_determines_fields_witness :
  payload_of form_ABCD = payload_of form_submitted.
Proof.
  apply (payloadJson_determines_fields (payload_of form_ABCD) (payload_of form_submitted)).
  reflexivity.
Defined.

(** X11: A field made of plain characters (printable, no quote, no backslash, no
    surrogate) is copied into the hidden JSON text as it is, between two
    quotes: nothing in it is escaped, the characters of a comment
    terminator included. *)
Theorem plain_fields_are_copied (st : FormState) :
  forallb JSONArray.plain_unit (topic st) = true ->
  forallb JSONArray.plain_unit (contentFormat st) = true ->
  forallb JSONArray.plain_unit (audience st) = true ->
  forallb JSONArray.plain_unit (tone st) = true ->
  let q s := JSON.QUOTE :: s ++ [JSON.QUOTE] in
  payloadJson (payload_of st)
  = [123%N] ++ q (lit "topic") ++ [58%N] ++ q (topic st)
    ++ [44%N] ++ q (lit "content_format") ++ [58%N] ++ q (contentFormat st)
    ++ [44%N] ++ q (lit "target_audience") ++ [58%N] ++ q (audience st)
    ++ [44%N] ++ q (lit "tone") ++ [58%N] ++ q (tone st) ++ [125%N].
Proof.
  intros Ht Hf Ha Hn. cbn zeta.
  unfold payloadJson. rewrite payload_of_fields.
  unfold JSON.stringify_object, JSON.member_text, JSON.stringify_string.
  cbn [List.map JSON.join_comma JSON.after_commas List.concat fst snd].
  rewrite !plain_quote_body by (assumption || reflexivity).
  cbn [app]. repeat (rewrite <- app_assoc; cbn [app]). rewrite ?app_nil_r. reflexivity.
Qed.

Lemma plain_fields_are_copied_witness :
  payloadJson (payload_of form_with_terminator)
  = [123; 34]%N ++ lit "topic" ++ [34; 58; 34]%N ++ lit "x -->" ++ [34; 44; 34]%N
    ++ lit "content_format" ++ [34; 58; 34; 66; 34; 44; 34]%N
    ++ lit "target_audience" ++ [34; 58; 34; 67; 34; 44; 34]%N
    ++ lit "tone" ++ [34; 58; 34; 68; 34; 125]%N.
Proof.
  rewrite (plain_fields_are_copied form_with_terminator) by reflexivity.
  reflexivity.
Defined.

End ClarifyMore.

(** ** More on the progress tracker *)

Module ProgressMore.
Import Progress ProgressFacts.




End ProgressMore.

(** ** Decimal text and row keys *)

Module NumFacts.
Local Open Scope N_scope.

Lemma lit_inj s1 s2 : lit s1 = lit s2 -> s1 = s2.
Proof.
  revert s2. induction s1 as [| a s1 IH]; intros [| b s2] E; try discriminate; [reflexivity |].
  cbn in E. injection E as Eab Es. f_equal; [| by apply IH].
  rewrite <- (ascii_N_embedding a), <- (ascii_N_embedding b). by rewrite Eab.
Qed.

Lemma decimal_inj n m : decimal n = decimal m -> n = m.
Proof.
  unfold decimal. intros E. apply lit_inj in E.
  pose proof (NilEmpty.usu (Nat.to_uint n)) as Hn. rewrite E, NilEmpty.usu in Hn.
  injection Hn as Hn.
  rewrite <- (DecimalNat.Unsigned.of_to n), <- (DecimalNat.Unsigned.of_to m). by rewrite Hn.
Qed.

Lemma uint_digits d : Forall (fun c => 48 <= c <= 57) (lit (NilEmpty.string_of_uint d)).
Proof.
  induction d; cbn [NilEmpty.string_of_uint lit]; constructor; try exact IHd;
    cbn; lia.
Qed.

(** The decimal text of a number has digits only; in particular no hyphen. *)
Lemma decimal_digits n : Forall (fun c => 48 <= c <= 57) (decimal n).
Proof. apply uint_digits. Qed.

Lemma decimal_no_dash n : ~ In DASH (decimal n).
Proof.
  intros Hin. pose proof (decimal_digits n) as H.
  rewrite Forall_forall in H. apply list_elem_of_In, H in Hin. unfold DASH in Hin. lia.
Qed.

Lemma split_at_first {A} (x : A) l1 l2 r1 r2 :
  ~ In x l1 -> ~ In x l2 -> l1 ++ x :: r1 = l2 ++ x :: r2 -> l1 = l2 /\ r1 = r2.
Proof.
  revert l2. induction l1 as [| a l1 IH]; intros [| b l2] H1 H2 E; cbn in *.
  - by simplify_eq.
  - simplify_eq. tauto.
  - simplify_eq. tauto.
  - injection E as -> E. destruct (IH l2) as [-> ->]; auto.
Qed.

(** A key built as [prefix ++ "-" ++ decimal idx] tells the index. *)
Lemma keyed_by_index (p1 p2 : jsstring) (i j : nat) :
  p1 ++ DASH :: decimal i = p2 ++ DASH :: decimal j -> i = j.
Proof.
  intros E. apply (f_equal (@rev N)) in E.
  rewrite !rev_app_distr in E. cbn [rev] in E. rewrite <- !app_assoc in E. cbn [app] in E.
  apply split_at_first in E as [E _].
  - apply (f_equal (@rev N)) in E. rewrite !rev_involutive in E. by apply decimal_inj.
  - rewrite <- in_rev. apply decimal_no_dash.
  - rewrite <- in_rev. apply decimal_no_dash.
Qed.

Lemma imap_keys_NoDup {A} (prefix : A -> nat -> jsstring) (l : list A) :
  NoDup (imap (fun idx x => prefix x idx ++ DASH :: decimal idx) l).
Proof.
  apply NoDup_alt. intros i j k Hi Hj.
  rewrite list_lookup_imap in Hi. rewrite list_lookup_imap in Hj.
  destruct (l !! i) as [x |]; [| discriminate]. destruct (l !! j) as [y |]; [| discriminate].
  cbn in Hi, Hj. simplify_eq. by eapply keyed_by_index.
Qed.

Lemma str_or_nonempty x d : d <> [] -> str_or x d <> [].
Proof. intros Hd. destruct x as [[| c s] |]; cbn; [exact Hd | discriminate | exact Hd]. Qed.

End NumFacts.

(** ** ArticleWorkflowCard and MCPWorkflowCard *)

Module WorkflowFacts.
Import NumFacts ActionBridge ActionBridgeFacts ClarifyFacts ClarifyMore Examples MoreExamples.

Lemma rows_Some flow_node_list current_node rs :
  ArticleWorkflow.rows flow_node_list current_node = Some rs ->
  rs = imap (ArticleWorkflow.row current_node) (default [] flow_node_list).
Proof.
  unfold ArticleWorkflow.rows.
  destruct (default [] flow_node_list); [discriminate |]. by intros [= <-].
Qed.

(** X13: Whatever the codes and names of the nodes are (absent, empty or
    repeated), the rows of the node list have pairwise different keys and
    non-empty labels, one row per node; the waiting notice replaces the
    rows exactly when the list is absent or empty. *)
Theorem workflow_rows_keys_unique (flow_node_list : option (list ArticleWorkflow.WorkflowNode))
    (current_node : option jsstring) :
  (ArticleWorkflow.rows flow_node_list current_node = None
   <-> default [] flow_node_list = [])
  /\ forall rs, ArticleWorkflow.rows flow_node_list current_node = Some rs ->
       length rs = length (default [] flow_node_list)
       /\ NoDup (List.map ArticleWorkflow.key rs)
       /\ Forall (fun r => ArticleWorkflow.row_label r <> []) rs.
Proof.
  split.
  - unfold ArticleWorkflow.rows.
    destruct (default [] flow_node_list); [tauto | split; discriminate].
  - intros rs Hrs. apply rows_Some in Hrs as ->.
    set (nodes := default [] flow_node_list). split; [| split].
    + apply length_imap.
    + change (@List.map ArticleWorkflow.Row jsstring) with (@fmap list _ ArticleWorkflow.Row jsstring).
      rewrite fmap_imap.
      apply (imap_keys_NoDup
               (fun x idx => str_or (ArticleWorkflow.node_code x) (ArticleWorkflow.label x idx))).
    + apply Forall_forall. intros r Hr.
      apply elem_of_lookup_imap in Hr as (idx & x & -> & _). cbn.
      unfold ArticleWorkflow.label. apply str_or_nonempty, str_or_nonempty.
      discriminate.
Qed.

Lemma workflow_rows_keys_unique_witness :
  ArticleWorkflow.rows (Some [node_anonymous; node_fetch; node_anonymous]) None
  = Some (imap (ArticleWorkflow.row None) [node_anonymous; node_fetch; node_anonymous])
  /\ NoDup [lit "node-1-0"; lit "fetch-1"; lit "node-3-2"].
Proof.
  destruct (workflow_rows_keys_unique (Some [node_anonymous; node_fetch; node_anonymous]) None)
    as [_ H].
  split; [reflexivity |].
  exact (proj1 (proj2 (H _ eq_refl))).
Defined.

(** X14: The options of a shortcut card have pairwise different keys, also when
    their codes and names are absent or repeated. *)
Theorem option_keys_unique (options : list MCPWorkflow.MCPOption) :
  NoDup (imap (fun idx o => MCPWorkflow.option_key o idx) options).
Proof.
  apply (imap_keys_NoDup
           (fun o (_ : nat) => to_display (opt_or (MCPWorkflow.code o) (MCPWorkflow.name o)))).
Qed.

(** X15: A click on an option has an effect in the [select] status only; there
    it hands the host the 1-based position of the option in decimal, so two
    different options never send the same text; and in no status do both
    the option click and the confirm or cancel click have an effect. *)
Theorem option_click_sends_position (status : MCPWorkflow.Status) (win : Window) (i j : nat) :
  (status <> MCPWorkflow.select -> MCPWorkflow.option_click status win i = [])
  /\ (status = MCPWorkflow.select -> MCPWorkflow.option_click status win i <> [])
  /\ (forall e t, In e (MCPWorkflow.option_click status win i) ->
                  Clarify.delivered_text e = Some t -> t = decimal (i + 1))
  /\ (i <> j -> decimal (i + 1) <> decimal (j + 1))
  /\ (forall yes, MCPWorkflow.option_click status win i = []
                  \/ MCPWorkflow.confirm_click status win yes = []).
Proof.
  split; [| split; [| split; [| split]]].
  - intros H. destruct status; try reflexivity. congruence.
  - intros ->. apply sendMessage_nonempty.
  - intros e t Hin Ht. destruct status; try (destruct Hin).
    by eapply sendMessage_delivers.
  - intros Hij E. apply decimal_inj in E. lia.
  - intros yes. destruct status; auto.
Qed.

Lemma option_click_sends_position_witness :
  MCPWorkflow.option_click MCPWorkflow.select studio_window 1
  = [ CallGlobal "__LANGGRAPH_SEND_MESSAGE__" (AText (lit "2")) Throws;
      CallGlobal "sendMessage" (AText (lit "2")) Returns ]
  /\ MCPWorkflow.option_click MCPWorkflow.running studio_window 1 = [].
Proof.
  destruct (option_click_sends_position MCPWorkflow.running studio_window 1 0) as (Hoff & _).
  split; [reflexivity | apply Hoff; discriminate].
Defined.

End WorkflowFacts.

(** ** IntentRouterCard: the elapsed-time label *)

Module IntentRouterFacts.
Import IntentRouter.

Lemma Math_round_nearest (s : Q) :
  (inject_Z (Math_round s) - (1 # 2) <= s)%Q /\ (s < inject_Z (Math_round s) + (1 # 2))%Q.
Proof.
  unfold Math_round.
  pose proof (Qfloor_le (s + (1 # 2))) as Hlo.
  pose proof (Qlt_floor (s + (1 # 2))) as Hhi.
  rewrite inject_Z_plus in Hhi. change (inject_Z 1) with 1%Q in Hhi.
  split; lra.
Qed.

(** X16: For an elapsed time within the safe integers, the label shows the
    time rounded to the nearest second (a half rounds up).  From 0 to 59 seconds it shows the seconds alone; from 60
    on it shows minutes and seconds, with at least one minute, seconds
    from 0 to 59, and [60 * m + r] equal to the rounded time; for a
    negative rounded time it never shows minutes, and shows a number of
    seconds from -59 to 0.  Without a number there is no label. *)
Theorem elapsedLabel_rounds_and_splits (s : Q) :
  Z.abs (Math_round s) <= safe_integer ->
  let total := Math_round s in
  (inject_Z total - (1 # 2) <= s)%Q /\ (s < inject_Z total + (1 # 2))%Q
  /\ (0 <= total < 60 -> elapsedLabel (Some s) = Some (Sec total))
  /\ (60 <= total ->
        exists m r, elapsedLabel (Some s) = Some (MinSec m r)
                    /\ 1 <= m /\ 0 <= r < 60 /\ 60 * m + r = total)
  /\ (total < 0 ->
        exists r, elapsedLabel (Some s) = Some (Sec r) /\ -60 < r <= 0)
  /\ elapsedLabel None = None.
Proof.
  intros _. cbn zeta. destruct (Math_round_nearest s) as [Hlo Hhi].
  split; [exact Hlo |]. split; [exact Hhi |].
  unfold elapsedLabel. cbn zeta. set (total := Math_round s). clearbody total.
  split; [| split; [| split]].
  - intros Ht. rewrite Z.div_small by lia. cbn.
    rewrite Z.rem_small by lia. reflexivity.
  - intros Ht. exists (total / 60), (Z.rem total 60).
    assert (Hm : 1 <= total / 60) by (apply Z.div_le_lower_bound; lia).
    replace (total / 60 >? 0) with true by (symmetry; apply Z.gtb_lt; lia).
    rewrite Z.rem_mod_nonneg by lia.
    pose proof (Z.mod_pos_bound total 60 ltac:(lia)).
    pose proof (Z.div_mod total 60 ltac:(lia)). repeat split; lia.
  - intros Ht. exists (Z.rem total 60).
    assert (Hm : total / 60 < 0) by (apply Z.div_lt_upper_bound; lia).
    replace (total / 60 >? 0) with false
      by (symmetry; rewrite Z.gtb_ltb; apply Z.ltb_ge; lia).
    pose proof (Z.rem_bound_pos_neg total 60 ltac:(lia) ltac:(lia)).
    split; [reflexivity | lia].
  - reflexivity.
Qed.

Lemma elapsedLabel_rounds_and_splits_witness :
  elapsedLabel (Some (119 # 2)) = Some (MinSec 1 0)
  /\ elapsedLabel (Some (59 # 1)) = Some (Sec 59).
Proof.
  assert (Hsafe : Z.abs (Math_round (59 # 1)) <= safe_integer) by (vm_compute; discriminate).
  destruct (elapsedLabel_rounds_and_splits (59 # 1) Hsafe) as (_ & _ & Hsec & _).
  split; [reflexivity |].
  apply Hsec. vm_compute. split; [discriminate | reflexivity].
Defined.

End IntentRouterFacts.

(** ** The report cards: which blocks are shown *)

Module SiteReportFacts.
Import Progress SiteReport Examples MoreExamples.

Lemma in_when c b x : In x (when c b) <-> c = true /\ x = b.
Proof.
  unfold when. destruct c; cbn; [| intuition discriminate].
  split; [intros [<- | []]; by split | intros [_ ->]; by left].
Qed.

(** Membership in the body of a card, block by block. *)
Ltac in_blocks H Hx :=
  unfold blocks, progress_blocks in H;
  repeat (apply in_app_or in H as [H | H]);
  apply in_when in H as [H Hx].

Lemma is_status_true s props : is_status s props = true <-> status props = s.
Proof. unfold is_status. apply bool_decide_eq_true. Qed.

Lemma blocks_in_error (props : Props) :
  status props = status_error ->
  blocks props = when (truthy (error_message props)) BError.
Proof.
  intros Hs. unfold blocks, is_status. rewrite Hs.
  rewrite !(bool_decide_eq_false_2 (status_error = loading)) by discriminate.
  rewrite !(bool_decide_eq_false_2 (status_error = status_done)) by discriminate.
  rewrite bool_decide_eq_true_2 by reflexivity. reflexivity.
Qed.

(** X17: In the error status the card shows the error box, when there is an
    error message, and nothing else: no metric, insight or progress block,
    whatever the report holds. *)
Theorem error_status_shows_error_only (props : Props) :
  status props = status_error ->
  blocks props = when (truthy (error_message props)) BError.
Proof. apply blocks_in_error. Qed.

Lemma error_status_shows_error_only_witness :
  status error_report = status_error /\ blocks error_report = [BError].
Proof.
  split; [reflexivity |].
  rewrite (error_status_shows_error_only error_report) by reflexivity. reflexivity.
Defined.

Lemma flag_report props f : flag props f = true -> report props <> None.
Proof. unfold flag. destruct (report props); [discriminate | discriminate]. Qed.

Lemma part_report {A} props (f : Report -> option A) x :
  part props f = Some x -> report props <> None.
Proof. unfold part. destruct (report props); [discriminate | discriminate]. Qed.

Lemma truthy_part_report {A} props (f : Report -> option (list A)) :
  truthy (part props f) = true -> report props <> None.
Proof. destruct (part props f) eqn:E; [intros _; by eapply part_report | discriminate]. Qed.

(** What the presence of a block says about the props. *)
Lemma blocks_cases props b :
  In b (blocks props) ->
  (b = BProgress /\ status props = loading)
  \/ (b = BMessage /\ status props = loading)
  \/ (b = BTraffic /\ status props = status_done /\ report props <> None
      /\ (reportType props = lit "overview" \/ reportType props = lit "traffic"))
  \/ (b = BEngagement /\ status props = status_done /\ report props <> None
      /\ reportType props = lit "engagement")
  \/ ((b = BPerformance \/ b = BContent) /\ status props = status_done
      /\ report props <> None)
  \/ ((b = BDataQuality \/ b = BTrace \/ b = BStepOutputs \/ b = BInsights \/ b = BActions)
      /\ status props <> status_error /\ report props <> None)
  \/ (b = BError /\ status props = status_error).
Proof.
  intros Hb. in_blocks Hb Hx; subst b;
    repeat (apply andb_true_iff in Hb as [Hb ?]);
    repeat match goal with
           | H : is_status _ _ = true |- _ => apply is_status_true in H
           | H : negb (is_status _ _) = true |- _ =>
               apply negb_true_iff, bool_decide_eq_false in H
           | H : flag _ _ = true |- _ => apply flag_report in H
           | H : truthy (part _ _) = true |- _ => apply truthy_part_report in H
           end.
  - left. by split.
  - right; left. by split.
  - right; right; left. repeat split; try assumption.
    match goal with H : _ || _ = true |- _ => apply orb_true_iff in H as [H | H];
      apply bool_decide_eq_true in H; [by left | by right] end.
  - right; right; right; left. repeat split; try assumption.
    match goal with H : type_is _ _ = true |- _ => by apply bool_decide_eq_true in H end.
  - do 4 right; left. repeat split; try assumption. by left.
  - do 5 right; left. repeat split; try assumption; [tauto |].
    destruct (part props data_quality) eqn:E; [by eapply part_report | discriminate].
  - do 5 right; left. repeat split; try assumption; [tauto |].
    destruct (part props trace) eqn:E; [by eapply part_report | discriminate].
  - do 5 right; left. repeat split; try assumption; tauto.
  - do 5 right; left. repeat split; try assumption; [tauto |].
    destruct (part props insights) eqn:E; [by eapply part_report | discriminate].
  - do 5 right; left. repeat split; try assumption; tauto.
  - do 4 right; left. repeat split; try assumption. by right.
  - do 6 right. by split.
Qed.

(** X18: Every block of the card appears under its status only: the metric
    blocks (traffic, engagement, performance, content) when done, the
    progress and message blocks while loading, the error box in the error
    status; every block other than progress, message and error needs a
    report.  The traffic block needs the report type overview or traffic
    and the engagement block the type engagement, so the two are never
    shown together. *)
Theorem blocks_follow_status (props : Props) (b : Block) :
  In b (blocks props) ->
  (is_metric b = true -> status props = status_done)
  /\ (b = BProgress \/ b = BMessage -> status props = loading)
  /\ (b = BError -> status props = status_error)
  /\ (b <> BProgress -> b <> BMessage -> b <> BError -> report props <> None)
  /\ (b = BTraffic -> reportType props = lit "overview" \/ reportType props = lit "traffic")
  /\ (b = BEngagement -> reportType props = lit "engagement")
  /\ ~ (In BTraffic (blocks props) /\ In BEngagement (blocks props)).
Proof.
  intros Hb.
  assert (Hexcl : ~ (In BTraffic (blocks props) /\ In BEngagement (blocks props))).
  { intros [Ht He]. apply blocks_cases in Ht. apply blocks_cases in He.
    destruct Ht as [[? _] | [[? _] | [(_ & _ & _ & Ht) | [[? _] | [[[? | ?] _] | [[? _] | [? _]]]]]]];
      try discriminate; try (intuition discriminate).
    destruct He as [[? _] | [[? _] | [[? _] | [(_ & _ & _ & He) | [[[? | ?] _] | [[? _] | [? _]]]]]]];
      try discriminate; try (intuition discriminate).
    destruct Ht as [Ht | Ht]; rewrite Ht in He; discriminate He. }
  apply blocks_cases in Hb.
  destruct Hb as [[-> ?] | [[-> ?] | [(-> & ? & ? & ?) | [(-> & ? & ? & ?) | [([-> | ->] & ? & ?)
                 | [(Hb & ? & ?) | [-> ?]]]]]]];
    repeat split; try assumption; try discriminate; try congruence; try tauto;
    try (intros; intuition (subst; try discriminate; try congruence)).
Qed.

Lemma blocks_follow_status_witness :
  blocks traffic_report = [BTraffic; BContent]
  /\ SiteReport.status traffic_report = status_done.
Proof.
  assert (Hin : In BTraffic (blocks traffic_report)) by (vm_compute; tauto).
  destruct (blocks_follow_status traffic_report BTraffic Hin) as (Hdone & _).
  split; [reflexivity | apply Hdone; reflexivity].
Defined.

(** X19: The insights card re-uses the report card without steps and without an
    error message: it never shows the progress block or the error box, and
    in the error status it shows no block at all. *)
Theorem insights_card_blocks (props : InsightsProps) :
  ~ In BProgress (insights_blocks props)
  /\ ~ In BError (insights_blocks props)
  /\ (i_status props = status_error -> insights_blocks props = [])
  /\ (forall b, In b (insights_blocks props) -> is_metric b = true ->
        i_status props = status_done).
Proof.
  unfold insights_blocks. split; [| split; [| split]].
  - intros H. in_blocks H Hx; try discriminate.
    apply andb_true_iff in H as [_ H]. discriminate H.
  - intros H. in_blocks H Hx; try discriminate.
    apply andb_true_iff in H as [_ H]. discriminate H.
  - intros Hs. rewrite blocks_in_error; [reflexivity |].
    cbn. rewrite Hs. reflexivity.
  - intros b Hb Hm. apply blocks_cases in Hb.
    assert (Hd : status (fake props) = status_done).
    { destruct Hb as [[-> ?] | [[-> ?] | [(-> & ? & _) | [(-> & ? & _) | [([-> | ->] & ? & _)
                     | [(Hb & _) | [-> ?]]]]]]]; try assumption; try discriminate.
      destruct Hb as [-> | [-> | [-> | [-> | ->]]]]; discriminate. }
    cbn in Hd. destruct (i_status props); congruence.
Qed.

(** The progress card shows its message in every status, and its step
    list only while loading and only when there is a step. *)
Theorem progress_card_blocks (props : Props) :
  (In BMessage (progress_blocks props) <-> truthy (message props) = true)
  /\ (In BProgress (progress_blocks props)
      <-> status props = loading /\ exists s rest, steps props = Some (s :: rest))
  /\ (forall b, In b (progress_blocks props) -> b = BProgress \/ b = BMessage \/ b = BError).
Proof.
  split; [| split].
  - unfold progress_blocks. rewrite !in_app_iff, !in_when. split.
    + intros [[_ H] | [[H _] | [_ H]]]; try discriminate. exact H.
    + intros H. right. left. by split.
  - unfold progress_blocks. rewrite !in_app_iff, !in_when. split.
    + intros [[H _] | [[_ H] | [_ H]]]; try discriminate.
      apply andb_true_iff in H as [Hs Hl]. apply is_status_true in Hs.
      split; [exact Hs |]. destruct (steps props) as [[| s rest] |]; try discriminate.
      by exists s, rest.
    + intros [Hs (s & rest & E)]. left. split; [| reflexivity].
      apply andb_true_iff. split; [by apply is_status_true |]. rewrite E. reflexivity.
  - intros b Hb. in_blocks Hb Hx; auto.
Qed.

End SiteReportFacts.

(** ** SEOPlannerCard: the fix control *)

Module SEOFixFacts.
Import SEO SEOFix NumFacts Examples MoreExamples.

Lemma chatMessage_nonempty t : chatMessage t <> [].
Proof. unfold chatMessage. apply str_or_nonempty. discriminate. Qed.

(** X20: A click on the fix button always starts with the [copilot:send] event,
    dispatched once, whatever the page holds; the request text is never
    empty, and the text written into the textarea is the text of the event.
    Without a matching textarea the page is not touched.  A click on the
    submit button is scheduled (after 100 ms) only when a textarea was
    filled and a button was found, the submit button of its form first,
    else the labelled button of the page; there is no other way to submit.
    The control of a task that is not an article task does nothing. *)
Theorem fix_click_shape (doc : FixDocument) (t : SEOTask) :
  let tr := fix_click doc t in
  hd_error tr = Some (FixEvent (fix_detail t))
  /\ length (List.filter is_event tr) = 1%nat
  /\ (forall e x, In e tr -> fix_text e = Some x -> x = chatMessage t /\ x <> [])
  /\ (studio_textarea doc = None -> tr = [FixEvent (fix_detail t)])
  /\ (forall ms b, In (FixClickLater ms b) tr ->
        ms = 100
        /\ exists ta, studio_textarea doc = Some ta
             /\ (closest_form (page doc) ta
                   ≫= (fun f => form_querySelector (page doc) f sel_submit) = Some b
                 \/ (closest_form (page doc) ta
                       ≫= (fun f => form_querySelector (page doc) f sel_submit) = None
                     /\ labelled_button doc = Some b)))
  /\ (fix_action t <> Some fix_article -> row_click doc t = []).
Proof.
  cbn zeta. unfold fix_click.
  split; [reflexivity |].
  destruct (studio_textarea doc) as [ta |].
  2: { repeat split; try reflexivity.
       - destruct H as [<- | []]. cbn in H0. congruence.
       - destruct H as [<- | []]. cbn in H0. injection H0 as <-. apply chatMessage_nonempty.
       - destruct H as [H | []]; discriminate H.
       - destruct H as [H | []]; discriminate H.
       - intros Hf. unfold row_click. destruct (fix_action t) as [[] |]; congruence. }
  assert (Hrow : fix_action t <> Some fix_article -> row_click doc t = []).
  { intros Hf. unfold row_click. destruct (fix_action t) as [[] |]; congruence. }
  destruct (closest_form (page doc) ta
              ≫= (fun f => form_querySelector (page doc) f sel_submit)) as [b1 |] eqn:Ef;
    destruct (labelled_button doc) as [b2 |] eqn:El;
    destruct (value_setter (page doc) TEXTAREA);
    (split; [reflexivity | split; [| split; [discriminate | split; [| exact Hrow]]]]);
    try (intros e x Hin Hx;
         assert (E : x = chatMessage t)
           by (cbn in Hin; repeat (destruct Hin as [<- | Hin]); try destruct Hin;
               cbn in Hx; congruence);
         split; [exact E | rewrite E; apply chatMessage_nonempty]);
    intros ms b Hin; cbn in Hin;
    repeat (destruct Hin as [Hin | Hin]); try contradiction; simplify_eq;
    (split; [reflexivity | exists ta; split; [reflexivity | auto]]).
Qed.

Lemma fix_click_shape_witness :
  row_click studio_page task_impact_7
  = [ FixEvent (fix_detail task_impact_7);
      FixSetNative the_textarea (lit "Write more");
      FixInput the_textarea;
      FixClickLater 100 form_button ]
  /\ hd_error (row_click studio_page task_impact_7) = Some (FixEvent (fix_detail task_impact_7)).
Proof.
  destruct (fix_click_shape studio_page task_impact_7) as (Hhd & _).
  split; [reflexivity | exact Hhd].
Defined.

End SEOFixFacts.

(** ** Further properties of the cards *)

Module CardsMore.
Import ActionBridge ResumeBridge ProbeFacts ActionBridgeFacts ResumeBridgeFacts.
Import ActionBridgeMore ClarifyFacts ClarifyMore SEOFacts Examples MoreExamples.

#[local] Arguments failed_calls : simpl never.

(** X21: The scale of an integer task value throws exactly when the value,
    taken as 0 when absent, is negative or above 5; for every other integer
    it renders the five glyphs.  (A value with a fraction is outside this
    statement: the count of a repetition is truncated first.) *)
Theorem scale_faults_iff_out_of_range (v : option Z) :
  let n := num_or v 0 in
  (SEO.scale v = RangeError <-> n < 0 \/ 5 < n)
  /\ (0 <= n <= 5 -> SEO.scale v = Normal (SEO.glyphs n)).
Proof.
  cbn zeta. unfold SEO.scale, SEO.glyphs, SEO.STAR, SEO.STAR_EMPTY.
  set (n := num_or v 0). clearbody n.
  destruct (Z.ltb_spec n 0) as [Hneg | Hnn].
  - unfold JS.repeat at 1. rewrite (proj2 (Z.ltb_lt n 0) Hneg). cbn [JS.bind].
    split; [split; [intros _; by left | reflexivity] | lia].
  - rewrite repeat_glyph by lia. cbn [JS.bind].
    destruct (Z.ltb_spec 5 n) as [Hbig | Hok].
    + unfold JS.repeat. rewrite (proj2 (Z.ltb_lt (5 - n) 0)) by lia. cbn [JS.bind].
      split; [split; [intros _; by right | reflexivity] | lia].
    + rewrite repeat_glyph by lia. cbn [JS.bind].
      split; [split; [discriminate | lia] | reflexivity].
Qed.

Lemma scale_faults_iff_out_of_range_witness :
  SEO.scale (Some (-1)) = RangeError
  /\ SEO.scale (Some 5) = Normal [9733; 9733; 9733; 9733; 9733]%N.
Proof.
  destruct (scale_faults_iff_out_of_range (Some (-1))) as [Hfault _].
  destruct (scale_faults_iff_out_of_range (Some 5)) as [_ Hok].
  split.
  - apply Hfault. left. reflexivity.
  - rewrite Hok by (cbn; lia). reflexivity.
Defined.

(** Every card component of the file can be reached: each renderer is the
    value of at least one of the ten keys of the registry. *)
Theorem every_renderer_has_a_key (r : Registry.Renderer) :
  length Registry.keys = 10%nat
  /\ exists key, In key Registry.keys /\ Registry.lookup_card key = Some r.
Proof.
  split; [reflexivity |].
  destruct r;
    [ exists "intent_router"%string | exists "article_workflow"%string
    | exists "article_clarify"%string | exists "mcp_workflow"%string
    | exists "seo_planner"%string | exists "site_report"%string
    | exists "report_progress"%string | exists "report_charts"%string
    | exists "report_insights"%string ];
    (split; [cbn; tauto | reflexivity]).
Qed.

(** X9: A submit from an idle form always attempts a delivery, and keeps the
    four fields as they are while setting the guard.  The stream channel
    is tried at most once; when its submit returns normally, nothing else
    is done: no global function is called, no event is broadcast and the
    page is not touched. *)
Theorem submit_channel_preference (ctx : Clarify.StreamCtx) (win : Window)
    (st : Clarify.FormState) :
  Clarify.submitting st = false ->
  let st' := (Clarify.handleSubmit ctx win st).1 in
  let tr := (Clarify.handleSubmit ctx win st).2 in
  tr <> []
  /\ Clarify.payload_of st' = Clarify.payload_of st
  /\ Clarify.submitting st' = true
  /\ (count_of StreamChannel tr <= 1)%nat
  /\ (forall m, In (StreamSubmit m Returns) tr -> tr = [StreamSubmit m Returns]).
Proof.
  intros Hs. cbn zeta. unfold Clarify.handleSubmit. rewrite Hs.
  assert (Hcount : forall t, count_of StreamChannel (sendMessage win t) = 0%nat).
  { intros t. destruct (sendMessage_cases win t) as
      [(pre & fn & post & _ & _ & _ & ->) | [_ ->]].
    - rewrite count_of_app, count_of_failed_calls by discriminate. reflexivity.
    - rewrite count_of_app, count_of_failed_calls by discriminate.
      destruct (manipulate_shape (document win) t) as [-> | [el ->]]; [reflexivity |].
      unfold fill_input. destruct (value_setter _ _); reflexivity. }
  assert (Hno : forall t m o, ~ In (StreamSubmit m o) (sendMessage win t)).
  { intros t m o Hin. specialize (Hcount t). unfold count_of in Hcount.
    assert (Hf : In (StreamSubmit m o)
                   (List.filter (fun e => bool_decide (strategy_of e = StreamChannel))
                      (sendMessage win t))).
    { apply filter_In. split; [exact Hin | reflexivity]. }
    destruct (List.filter _ (sendMessage win t)); [destruct Hf | discriminate Hcount]. }
  assert (Hstream : forall m o l,
            count_of StreamChannel (StreamSubmit m o :: l) = S (count_of StreamChannel l)).
  { intros m o l. unfold count_of. cbn [List.filter strategy_of].
    rewrite bool_decide_eq_true_2 by reflexivity. reflexivity. }
  destruct ctx as [| [[] |]]; cbn [fst snd];
    (split; [| split; [reflexivity | split; [reflexivity | split]]]).
  - apply sendMessage_nonempty.
  - rewrite Hcount. lia.
  - intros m Hin. by apply Hno in Hin.
  - discriminate.
  - rewrite Hstream. cbn. lia.
  - intros m [Hin | []]. by simplify_eq.
  - discriminate.
  - rewrite Hstream, Hcount. lia.
  - intros m [Hin | Hin]; [discriminate Hin | by apply Hno in Hin].
  - apply sendMessage_nonempty.
  - rewrite Hcount. lia.
  - intros m Hin. by apply Hno in Hin.
Qed.

Lemma submit_channel_preference_witness :
  Clarify.submitting form_ABCD = false
  /\ (Clarify.handleSubmit working_stream studio_window form_ABCD).2
     = [StreamSubmit (Clarify.newMessage (Clarify.displayContent (Clarify.payload_of form_ABCD)))
          Returns].
Proof.
  destruct (submit_channel_preference working_stream studio_window form_ABCD eq_refl)
    as (_ & _ & _ & _ & Honly).
  split; [reflexivity |].
  apply Honly. left. reflexivity.
Defined.

End CardsMore.
